(** * zevals core: segments, criteria and the eval runner

    A shallow embedding of [packages/core/src] of zevals:
    [message.ts], [agent.ts], [criteria/criterion.ts], [segment.ts] and
    [eval-runner.ts].

    The TypeScript code is asynchronous and talks to three external
    collaborators (the agent under test, the synthetic user and the
    criteria).  Their calls are embedded as transitions on an abstract
    world state: a call runs against the world when it is made and hands
    back a settled promise, and [await] turns a rejected promise into a
    thrown error.  Beside the world, a run keeps the list of the calls
    made, so that one can say who was called, on what and how often.
    [max] of [userSimulation] is taken to be an integer. *)

From Stdlib Require Import String List ZArith Bool Lia.
Import ListNotations.
Local Open Scope string_scope.
Local Open Scope list_scope.
Set Warnings "-register-all".

(** ** async functions: promises, thrown errors, state passing *)

Module Async.

(** [new Error(message)] *)
Record Error : Type := mkError { error_message : string }.

(** A settled promise. *)
Inductive Promise (A : Type) : Type :=
| Resolved (value : A)
| Rejected (reason : Error).
Arguments Resolved {A} value.
Arguments Rejected {A} reason.

(** How the body of an async function ends. *)
Inductive Outcome (A : Type) : Type :=
| Returned (value : A)
| Thrown (error : Error).
Arguments Returned {A} value.
Arguments Thrown {A} error.

(** The body of an async function over a state [S].  A thrown error
    keeps the state reached so far. *)
Definition Async (S A : Type) : Type := S -> Outcome A * S.

Definition ret {S A : Type} (a : A) : Async S A :=
  fun s => (Returned a, s).

Definition throw {S A : Type} (e : Error) : Async S A :=
  fun s => (Thrown e, s).

Definition bind {S A B : Type} (m : Async S A) (k : A -> Async S B) : Async S B :=
  fun s =>
    match m s with
    | (Returned a, s') => k a s'
    | (Thrown e, s') => (Thrown e, s')
    end.

(** [await p] *)
Definition await {S A : Type} (p : Promise A) : Async S A :=
  match p with
  | Resolved a => ret a
  | Rejected e => throw e
  end.

(** [p.then(f)] on a settled promise, [f] not throwing. *)
Definition then_ {A B : Type} (p : Promise A) (f : A -> B) : Promise B :=
  match p with
  | Resolved a => Resolved (f a)
  | Rejected e => Rejected e
  end.

(** [Promise.all(ps)]: resolved with every value in order, or rejected
    with the reason of the first rejected promise. *)
Fixpoint all {A : Type} (ps : list (Promise A)) : Promise (list A) :=
  match ps with
  | [] => Resolved []
  | Resolved a :: ps' => then_ (all ps') (cons a)
  | Rejected e :: _ => Rejected e
  end.

(** [Promise.all([p1, p2])] *)
Definition all2 {A B : Type} (p1 : Promise A) (p2 : Promise B) : Promise (A * B) :=
  match p1, p2 with
  | Resolved a, Resolved b => Resolved (a, b)
  | Rejected e, _ => Rejected e
  | Resolved _, Rejected e => Rejected e
  end.

End Async.
Import Async.

Declare Scope async_scope.
Delimit Scope async_scope with async.
Notation "x <- m ;; k" := (bind m (fun x => k))
  (at level 61, m at next level, right associativity) : async_scope.
Local Open Scope async_scope.

(** ** message.ts *)

(** [unknown] and [Record<string, unknown>]: JSON-like values. *)
Inductive Unknown : Type :=
| UNull
| UBool (b : bool)
| UNumber (n : Z)
| UString (s : string)
| UArray (items : list Unknown)
| UObject (fields : list (string * Unknown)).

Definition JsRecord : Type := list (string * Unknown).

Record ToolCall : Type := mkToolCall {
  tc_id : option string;
  tc_name : string;
  tc_args : JsRecord;
  tc_result : option JsRecord
}.

Record UserMessage : Type := mkUserMessage { user_content : string }.

Record ToolResultMessage : Type := mkToolResultMessage {
  tool_call_id : option string;
  tool_name : string;
  tool_content : JsRecord
}.

Record SystemMessage : Type := mkSystemMessage { system_content : string }.

(** [Message], [AIMessage] and [AgentResponseGenerationContext] refer to
    each other through [context.prompt_used]. *)
Inductive Message : Type :=
| Assistant (m : AIMessage)
| User (m : UserMessage)
| Tool (m : ToolResultMessage)
| System (m : SystemMessage)
with AIMessage : Type :=
| mkAIMessage (content : string)
              (tool_calls : option (list ToolCall))
              (context : option AgentResponseGenerationContext)
with AgentResponseGenerationContext : Type :=
| mkContext (prompt_used : option (list Message))
            (tool_calls : option (list ToolCall)).

Definition ai_content (m : AIMessage) : string :=
  match m with mkAIMessage c _ _ => c end.

(** ** agent.ts *)

Record AgentInvocationResult : Type := mkAgentInvocationResult {
  message_of : AIMessage
}.

Record Agent (World : Type) : Type := mkAgent {
  invoke : list Message -> World -> Promise AgentInvocationResult * World
}.
Arguments mkAgent {World} invoke.
Arguments invoke {World} a messages w.

(** ** criteria/criterion.ts *)

Inductive Status : Type := success | failure.

Record CriterionResult (Output : Type) : Type := mkCriterionResult {
  output : Output;
  reason : option string;
  error : option Unknown;
  status : option Status
}.
Arguments mkCriterionResult {Output} output reason error status.
Arguments output {Output} c.
Arguments reason {Output} c.
Arguments error {Output} c.
Arguments status {Output} c.

(** [result.status === 'success'] *)
Definition is_success (s : option Status) : bool :=
  match s with
  | Some success => true
  | _ => false
  end.

(** [result.status === 'failure'] *)
Definition is_failure (s : option Status) : bool :=
  match s with
  | Some failure => true
  | _ => false
  end.

(** [Boolean(reason)]: a string is truthy when it is defined and not empty. *)
Definition truthy (r : option string) : bool :=
  match r with
  | Some "" => false
  | Some _ => true
  | None => false
  end.

(** [reasons.filter(Boolean)] on optional strings. *)
Definition filterBoolean (rs : list (option string)) : list string :=
  flat_map (fun r => match r with
                     | Some s => if truthy r then [s] else []
                     | None => []
                     end) rs.

(** [parts.join(sep)] *)
Definition join (sep : string) (parts : list string) : string :=
  String.concat sep parts.

Module Criterion.

(** A criterion object.  [ref] is the identity of the object, the thing
    [===] compares; an object literal allocates a new one. *)
Record Criterion (World Output : Type) : Type := mkCriterion {
  ref : nat;
  name : string;
  evaluate : list Message -> World -> Promise (CriterionResult Output) * World
}.
Arguments mkCriterion {World Output} ref name evaluate.
Arguments ref {World Output} c.
Arguments name {World Output} c.
Arguments evaluate {World Output} c messages w.

Section WithWorld.
Context {World : Type}.

(** [Criterion.negate]; [fresh] is the identity of the returned object. *)
Definition negate {T : Type} (fresh : nat) (c : Criterion World T) : Criterion World T :=
  {| ref := fresh;
     name := name c;
     evaluate := fun params w =>
       let (p, w') := evaluate c params w in
       (then_ p (fun result =>
          {| output := output result;
             reason := reason result;
             error := error result;
             status := if is_success (status result) then Some failure
                       else if is_failure (status result) then Some success
                       else status result |}), w') |}.

(** [Criterion.and]; both evaluations are started, [c1] first, and joined
    with [Promise.all]. *)
Definition and {T U : Type} (fresh : nat) (c1 : Criterion World T) (c2 : Criterion World U)
  : Criterion World (T * U) :=
  {| ref := fresh;
     name := name c1 ++ " AND " ++ name c2;
     evaluate := fun params w =>
       let (p1, w1) := evaluate c1 params w in
       let (p2, w2) := evaluate c2 params w1 in
       (then_ (all2 p1 p2) (fun '(result1, result2) =>
          let reason_ := join " AND " (filterBoolean [reason result1; reason result2]) in
          {| output := (output result1, output result2);
             reason := Some reason_;
             error := None;
             status := if is_success (status result1) && is_success (status result2)
                       then Some success else Some failure |}), w2) |}.

(** [Criterion.pipe] *)
Definition pipe {T U : Type} (fresh : nat) (c : Criterion World T) (fn : T -> U)
  : Criterion World U :=
  {| ref := fresh;
     name := name c;
     evaluate := fun params w =>
       let (p, w') := evaluate c params w in
       (then_ p (fun result =>
          {| output := fn (output result);
             reason := reason result;
             error := error result;
             status := status result |}), w') |}.

End WithWorld.
End Criterion.

(** ** The run of a scenario

    The state the segments and the runner work on: the world of the
    collaborators, and the list of the calls made to them so far. *)

(** What [SyntheticUser.respond] is given: [UserMessage | AIMessage]. *)
Inductive UserOrAIMessage : Type :=
| OfUser (m : UserMessage)
| OfAI (m : AIMessage).

Inductive Call : Type :=
| CallFactory
| CallRespond (messages : list UserOrAIMessage)
| CallInvoke (messages : list Message)
| CallEvaluate (criterion : nat) (messages : list Message).

Record Run (World : Type) : Type := mkRun {
  world : World;
  calls : list Call
}.
Arguments mkRun {World} world calls.
Arguments world {World} r.
Arguments calls {World} r.

(** Calling an async method of a collaborator: the call is recorded, the
    promise it returns is handed back without being awaited. *)
Definition call {World A : Type} (c : Call) (f : World -> Promise A * World)
  : Async (Run World) (Promise A) :=
  fun s =>
    let (p, w) := f (world s) in
    (Returned p, {| world := w; calls := calls s ++ [c] |}).

(** ** segment.ts *)

Module Segment.

(** An AI that plays the role of a user. *)
Record SyntheticUser (World : Type) : Type := mkSyntheticUser {
  respond : list UserOrAIMessage -> World -> Promise UserMessage * World
}.
Arguments mkSyntheticUser {World} respond.
Arguments respond {World} s messages w.

(** The result of evaluating a segment. *)
Inductive SegmentEvaluationPromise (World Any : Type) : Type :=
| type_eval (criterion : Criterion.Criterion World Any)
            (evalResult : Promise (CriterionResult Any))
| type_message (message : Message).
Arguments type_eval {World Any} criterion evalResult.
Arguments type_message {World Any} message.

(** Part of a scenario to be evaluated. *)
Record Segment (World Any : Type) : Type := mkSegment {
  evaluate : Agent World -> list Message ->
             Async (Run World) (list (SegmentEvaluationPromise World Any))
}.
Arguments mkSegment {World Any} evaluate.
Arguments evaluate {World Any} s agent previousActualMessages.

Section WithWorld.
Context {World Any : Type}.

Local Abbreviation Promises := (list (SegmentEvaluationPromise World Any)).

(** [segs.flatMap((seg) => (seg.type === 'message' ? [seg.message] : []))] *)
Definition messagesOf (segs : Promises) : list Message :=
  flat_map (fun seg => match seg with
                       | type_message m => [m]
                       | type_eval _ _ => []
                       end) segs.

(** Simply adds a message to the evaluation history. *)
Definition message (message : Message) : Segment World Any :=
  {| evaluate := fun _ _ => ret [type_message message] |}.

(** Invokes the AI agent to generate a response. *)
Definition agentResponse : Segment World Any :=
  {| evaluate := fun agent previousActualMessages =>
       p <- call (CallInvoke previousActualMessages) (invoke agent previousActualMessages) ;;
       agentResponse <- await p ;;
       ret [type_message (Assistant (message_of agentResponse))] |}.

(** Evaluates the conversation history against a criterion. *)
Definition aiEval (criterion : Criterion.Criterion World Any) : Segment World Any :=
  {| evaluate := fun _ previousActualMessages =>
       if (length previousActualMessages =? 0)%nat then
         throw (mkError "Criterion evaluation appears before any messages")
       else
         evalResult <- call (CallEvaluate (Criterion.ref criterion) previousActualMessages)
                            (Criterion.evaluate criterion previousActualMessages) ;;
         ret [type_eval criterion evalResult] |}.

(** The roles of the messages sent to the synthetic user are flipped. *)
Definition flipRoles (messages : list Message) : list UserOrAIMessage :=
  flat_map (fun m =>
    match m with
    | User u => [OfAI (mkAIMessage (user_content u) None None)]
    | Assistant a => [OfUser (mkUserMessage (ai_content a))]
    | Tool _ | System _ => []
    end) messages.

Section UserSimulation.
Variable user : SyntheticUser World.
Variable until : Criterion.Criterion World Any.
Variable maxIterations : Z.
Variable agent : Agent World.
Variable previousActualMessages : list Message.

(** The [for] loop: [i] is its counter, [evaluatedSegmentPromises] the
    array it pushes to, [fuel] the number of iterations left, which is
    [Z.to_nat (maxIterations - i)] throughout. *)
Fixpoint simulationLoop (fuel : nat) (i : Z) (evaluatedSegmentPromises : Promises)
  : Async (Run World) Promises :=
  match fuel with
  | O => ret evaluatedSegmentPromises
  | S fuel' =>
    if (i <? maxIterations)%Z then
      let messages := previousActualMessages ++ messagesOf evaluatedSegmentPromises in
      p <- call (CallRespond (flipRoles messages)) (respond user (flipRoles messages)) ;;
      userResponse <- await p ;;
      let userMessage := User (mkUserMessage (user_content userResponse)) in
      let evaluatedSegmentPromises := evaluatedSegmentPromises ++ [type_message userMessage] in
      let messages := messages ++ [userMessage] in
      p <- call (CallInvoke messages) (invoke agent messages) ;;
      agentResponse <- await p ;;
      let agentMessage := Assistant (message_of agentResponse) in
      let evaluatedSegmentPromises := evaluatedSegmentPromises ++ [type_message agentMessage] in
      let messages := messages ++ [agentMessage] in
      p <- call (CallEvaluate (Criterion.ref until) messages)
                (Criterion.evaluate until messages) ;;
      breakConditionResult <- await p ;;
      if is_success (status breakConditionResult) then
        ret (evaluatedSegmentPromises ++ [type_eval until (Resolved breakConditionResult)])
      else if (i =? maxIterations - 1)%Z then
        ret (evaluatedSegmentPromises ++ [type_eval until (Resolved breakConditionResult)])
      else
        simulationLoop fuel' (i + 1)%Z evaluatedSegmentPromises
    else ret evaluatedSegmentPromises
  end.

End UserSimulation.

(** [max ?? 10] *)
Definition maxIterationsOf (max : option Z) : Z :=
  match max with
  | Some m => m
  | None => 10%Z
  end.

(** [userSimulation({ user, max, until })] *)
Definition userSimulation (user : SyntheticUser World) (max : option Z)
  (until : Criterion.Criterion World Any) : Segment World Any :=
  {| evaluate := fun agent previousActualMessages =>
       let maxIterations := maxIterationsOf max in
       simulationLoop user until maxIterations agent previousActualMessages
         (Z.to_nat maxIterations) 0%Z [] |}.

End WithWorld.
End Segment.

(** ** utils.ts *)

(** Modelled from the spec: [groupBy] of [./utils], which [eval-runner.ts]
    imports and which is not part of the sources at hand.  The spec reads
    its result as one bucket per key, the bucket of a key no element maps
    to being empty ("absence of eval entries entirely also counts as
    success").  The buckets keep the order of the array. *)
Definition groupBy {T K : Type} (K_eqb : K -> K -> bool) (array : list T) (key : T -> K)
  : K -> list T :=
  fun k => filter (fun item => K_eqb (key item) k) array.

(** ** eval-runner.ts *)

Module EvalRunner.

(** The [type: 'eval'] variant of [EvaluatedSegment]. *)
Record EvalEntry (World Any : Type) : Type := mkEvalEntry {
  evalResult : CriterionResult Any;
  criterion : Criterion.Criterion World Any
}.
Arguments mkEvalEntry {World Any} evalResult criterion.
Arguments evalResult {World Any} e.
Arguments criterion {World Any} e.

Inductive EvaluatedSegment (World Any : Type) : Type :=
| type_message (message : Message)
| type_eval (entry : EvalEntry World Any).
Arguments type_message {World Any} message.
Arguments type_eval {World Any} entry.

(** The keys of [resultsByStatus]: ['success' | 'failure' | 'unknown']. *)
Inductive StatusKey : Type := key_success | key_failure | key_unknown.

Definition StatusKey_eqb (a b : StatusKey) : bool :=
  match a, b with
  | key_success, key_success | key_failure, key_failure | key_unknown, key_unknown => true
  | _, _ => false
  end.

(** [status ?? 'unknown'] *)
Definition statusOrUnknown (s : option Status) : StatusKey :=
  match s with
  | Some success => key_success
  | Some failure => key_failure
  | None => key_unknown
  end.

(** [agent: A | (() => Promise<A>)] *)
Inductive AgentOrFactory (World : Type) : Type :=
| the_agent (agent : Agent World)
| the_factory (agent : World -> Promise (Agent World) * World).
Arguments the_agent {World} agent.
Arguments the_factory {World} agent.

(** The object [evaluate] returns. *)
Record Report (World Any : Type) : Type := mkReport {
  results : list (EvaluatedSegment World Any);
  resultsByStatus : StatusKey -> list (EvalEntry World Any);
  messages : list Message;
  success : bool;
  getResults : Criterion.Criterion World Any -> list (CriterionResult Any);
  getResult : Criterion.Criterion World Any -> option (CriterionResult Any);
  getResultOrThrow : Criterion.Criterion World Any -> Outcome (CriterionResult Any)
}.
Arguments mkReport {World Any}.
Arguments results {World Any} r.
Arguments resultsByStatus {World Any} r.
Arguments messages {World Any} r.
Arguments success {World Any} r.
Arguments getResults {World Any} r.
Arguments getResult {World Any} r.
Arguments getResultOrThrow {World Any} r.

Section WithWorld.
Context {World Any : Type}.

Local Abbreviation Promises := (list (Segment.SegmentEvaluationPromise World Any)).
Local Abbreviation Entry := (EvaluatedSegment World Any).

(** [r.criterion === criterion] *)
Definition sameCriterion (a b : Criterion.Criterion World Any) : bool :=
  Nat.eqb (Criterion.ref a) (Criterion.ref b).

(** The loop over [segments]. *)
Fixpoint evaluateSegments (_agent : Agent World) (segments : list (Segment.Segment World Any))
  (evaluatedSegmentPromises : Promises) : Async (Run World) Promises :=
  match segments with
  | [] => ret evaluatedSegmentPromises
  | segment :: segments' =>
      let previousActualMessages := Segment.messagesOf evaluatedSegmentPromises in
      segmentResult <- Segment.evaluate segment _agent previousActualMessages ;;
      evaluateSegments _agent segments' (evaluatedSegmentPromises ++ segmentResult)
  end.

(** The promise each entry is mapped to before [Promise.all]. *)
Definition resolveEntry (res : Segment.SegmentEvaluationPromise World Any) : Promise Entry :=
  match res with
  | Segment.type_eval criterion evalResult =>
      then_ evalResult (fun evalResult =>
        type_eval {| evalResult := evalResult; criterion := criterion |})
  | Segment.type_message message => Resolved (type_message message)
  end.

(** [results.flatMap((r) => (r.type === 'eval' && r.evalResult.status ? [r] : []))] *)
Definition withStatus (results : list Entry) : list (EvalEntry World Any) :=
  flat_map (fun r => match r with
                     | type_eval r =>
                         match status (evalResult r) with
                         | Some _ => [r]
                         | None => []
                         end
                     | type_message _ => []
                     end) results.

(** [results.find((r) => r.type === 'eval' && r.criterion === criterion)?.evalResult] *)
Definition findResult (results : list Entry) (c : Criterion.Criterion World Any)
  : option (CriterionResult Any) :=
  match find (fun r => match r with
                       | type_eval r => sameCriterion (criterion r) c
                       | type_message _ => false
                       end) results with
  | Some (type_eval r) => Some (evalResult r)
  | _ => None
  end.

(** The object returned at the end of [evaluate]. *)
Definition report (evaluatedSegmentPromises : Promises) (results : list Entry)
  : Report World Any :=
  let getResult := findResult results in
  let resultsByStatus :=
    groupBy StatusKey_eqb (withStatus results)
            (fun r => statusOrUnknown (status (evalResult r))) in
  {| results := results;
     resultsByStatus := resultsByStatus;
     messages := Segment.messagesOf evaluatedSegmentPromises;
     success := (length (resultsByStatus key_failure) =? 0)%nat;
     getResults := fun c =>
       flat_map (fun r => match r with
                          | type_eval r =>
                              if sameCriterion (criterion r) c then [evalResult r] else []
                          | type_message _ => []
                          end) results;
     getResult := getResult;
     getResultOrThrow := fun c =>
       match getResult c with
       | None => Thrown (mkError ("Cannot find results for criterion " ++ Criterion.name c))
       | Some res => Returned res
       end |}.

(** Evaluates the scenario ([segments]) against the agent. *)
Definition evaluate (agent : AgentOrFactory World) (segments : list (Segment.Segment World Any))
  : Async (Run World) (Report World Any) :=
  _agent <- match agent with
            | the_factory f => p <- call CallFactory f ;; await p
            | the_agent a => ret a
            end ;;
  evaluatedSegmentPromises <- evaluateSegments _agent segments [] ;;
  results <- await (all (map resolveEntry evaluatedSegmentPromises)) ;;
  ret (report evaluatedSegmentPromises results).

End WithWorld.
End EvalRunner.

(** ** criteria/tools-called.ts *)

Module ToolsCalled.

(** [message.tool_calls] *)
Definition ai_tool_calls (m : AIMessage) : option (list ToolCall) :=
  match m with mkAIMessage _ tool_calls _ => tool_calls end.

(** [message.context?.tool_calls] *)
Definition ai_context_tool_calls (m : AIMessage) : option (list ToolCall) :=
  match m with
  | mkAIMessage _ _ (Some (mkContext _ tool_calls)) => tool_calls
  | mkAIMessage _ _ None => None
  end.

(** [record[key]], undefined when the record has no such property. *)
Fixpoint getProperty (record : JsRecord) (key : string) : option Unknown :=
  match record with
  | [] => None
  | (k, v) :: rest => if String.eqb k key then Some v else getProperty rest key
  end.

(** [value === s] for [s] a string or undefined. *)
Definition strictEquals (value : option Unknown) (s : option string) : bool :=
  match value, s with
  | None, None => true
  | Some (UString a), Some b => String.eqb a b
  | _, _ => false
  end.

(** The TypeError of reading a property of undefined. *)
Definition undefinedRead : Error :=
  mkError "Cannot read properties of undefined (reading 'id')".

Definition andThen {A B : Type} (o : Outcome A) (k : A -> Outcome B) : Outcome B :=
  match o with
  | Returned a => k a
  | Thrown e => Thrown e
  end.

(** The array [followingToolResults]: a deleted element leaves an empty
    slot, [None]. *)
Definition ToolResults : Type := list (option JsRecord).

(** [(result) => result.id === call.id || result.name === call.name] *)
Definition resultOf (call : ToolCall) (result : JsRecord) : bool :=
  strictEquals (getProperty result "id") (tc_id call)
  || strictEquals (getProperty result "name") (Some (tc_name call)).

(** [followingToolResults.findIndex(...)], [None] for [-1].  [findIndex]
    visits empty slots too, as undefined, and the predicate then throws. *)
Fixpoint findIndexFrom (call : ToolCall) (followingToolResults : ToolResults) (index : nat)
  : Outcome (option nat) :=
  match followingToolResults with
  | [] => Returned None
  | None :: _ => Thrown undefinedRead
  | Some result :: rest =>
      if resultOf call result then Returned (Some index)
      else findIndexFrom call rest (S index)
  end.

(** [delete followingToolResults[index]] *)
Fixpoint deleteAt (followingToolResults : ToolResults) (index : nat) : ToolResults :=
  match followingToolResults, index with
  | [], _ => []
  | _ :: rest, O => None :: rest
  | slot :: rest, S index' => slot :: deleteAt rest index'
  end.

(** The callback of [calls.forEach]: the call as it leaves it, and the
    array of following results as it leaves it. *)
Definition setResult (call : ToolCall) (followingToolResults : ToolResults)
  : Outcome (ToolCall * ToolResults) :=
  andThen (findIndexFrom call followingToolResults 0) (fun callResult =>
    match callResult, tc_result call with
    | None, None => Returned (call, followingToolResults)
    | None, Some own =>
        Returned ({| tc_id := tc_id call; tc_name := tc_name call; tc_args := tc_args call;
                     tc_result := Some own |}, followingToolResults)
    | Some index, own =>
        let tool := match own with
                    | Some r => Some r
                    | None => nth index followingToolResults None
                    end in
        Returned ({| tc_id := tc_id call; tc_name := tc_name call; tc_args := tc_args call;
                     tc_result := tool |}, deleteAt followingToolResults index)
    end).

(** [calls.forEach(...)] *)
Fixpoint setResults (calls : list ToolCall) (followingToolResults : ToolResults)
  : Outcome (list ToolCall) :=
  match calls with
  | [] => Returned []
  | call :: rest =>
      andThen (setResult call followingToolResults) (fun '(call', following') =>
      andThen (setResults rest following') (fun rest' =>
      Returned (call' :: rest')))
  end.

(** The [calls] of an assistant message before their results are set:
    those of [tool_calls] without a result, then those of the context. *)
Definition callsOf (message : AIMessage) : list ToolCall :=
  map (fun toolCall =>
         {| tc_id := tc_id toolCall; tc_name := tc_name toolCall;
            tc_args := tc_args toolCall; tc_result := None |})
      (match ai_tool_calls message with Some l => l | None => [] end)
  ++ map (fun toolCall =>
            {| tc_id := tc_id toolCall; tc_name := tc_name toolCall;
               tc_args := tc_args toolCall; tc_result := tc_result toolCall |})
         (match ai_context_tool_calls message with Some l => l | None => [] end).

(** [messages.slice(index + 1).flatMap(...)]: the contents of the tool
    messages that follow. *)
Definition toolResultsOf (following : list Message) : ToolResults :=
  flat_map (fun message => match message with
                           | Tool m => [Some (tool_content m)]
                           | _ => []
                           end) following.

Fixpoint extractToolCallsFromMessages (messages : list Message) : Outcome (list ToolCall) :=
  match messages with
  | [] => Returned []
  | Assistant message :: following =>
      andThen (setResults (callsOf message) (toolResultsOf following)) (fun calls =>
      andThen (extractToolCallsFromMessages following) (fun rest =>
      Returned (calls ++ rest)))
  | _ :: following => extractToolCallsFromMessages following
  end.

(** The promise an async function returns, settled as its body ends. *)
Definition settle {S A : Type} (body : Async S A) : S -> Promise A * S :=
  fun s =>
    match body s with
    | (Returned a, s') => (Resolved a, s')
    | (Thrown e, s') => (Rejected e, s')
    end.

(** A caught error as the [unknown] value of [error]. *)
Definition caught (e : Error) : Unknown :=
  UObject [("message", UString (error_message e))].

(** [aiToolCalls]; [assertion] returns its value or a promise of it, or
    throws: it is taken as the promise [await] sees. *)
Definition aiToolCalls {World T : Type} (fresh : nat)
  (assertion : list ToolCall -> World -> Promise T * World)
  : Criterion.Criterion World (option T) :=
  {| Criterion.ref := fresh;
     Criterion.name := "AI Tool Calls";
     Criterion.evaluate := fun messages =>
       settle (
         match extractToolCallsFromMessages messages with
         | Thrown e => throw e
         | Returned toolCalls =>
             fun w =>
               let (p, w') := assertion toolCalls w in
               match p with
               | Resolved assertionRes =>
                   (Returned {| output := Some assertionRes; reason := None; error := None;
                                status := Some success |}, w')
               | Rejected e =>
                   (Returned {| output := None;
                                reason := Some "Tool call assertion failed";
                                error := Some (caught e);
                                status := Some failure |}, w')
               end
         end) |}.

Record ToolCallAssertion (World : Type) : Type := mkToolCallAssertion {
  name : string;
  assertion : option (ToolCall -> World -> Promise (option bool) * World)
}.
Arguments mkToolCallAssertion {World} name assertion.
Arguments name {World} t.
Arguments assertion {World} t.

Record ToolCallsCriterionOutput : Type := mkOutput { toolCallOrderSatisfied : bool }.

Section WithWorld.
Context {World : Type}.

Local Abbreviation Result := (CriterionResult ToolCallsCriterionOutput).

Definition notCalled (orderSatisfied : bool) (toolCallAssertion : ToolCallAssertion World)
  : Result :=
  {| output := {| toolCallOrderSatisfied := orderSatisfied |};
     reason := Some ("Tool '" ++ name toolCallAssertion ++ "' was not called")%string;
     error := None;
     status := Some failure |}.

Definition outOfOrder (corresponding : ToolCall) (toolCallAssertion : ToolCallAssertion World)
  : Result :=
  {| output := {| toolCallOrderSatisfied := false |};
     reason := Some ("Tool '" ++ tc_name corresponding
                       ++ "' was called out of order - expected '"
                       ++ name toolCallAssertion ++ "'")%string;
     error := None;
     status := Some failure |}.

Definition assertionFailed (toolCallAssertion : ToolCallAssertion World)
  (error : option Unknown) : Result :=
  {| output := {| toolCallOrderSatisfied := true |};
     reason := Some ("Tool '" ++ name toolCallAssertion ++ "' assertion failed")%string;
     error := error;
     status := Some failure |}.

Section Loop.
Variable assertOrder : option bool.
Variable reversedActualToolCalls : list ToolCall.

(** The [for] loop over [reversedToolCallAssertions], from index [i]. *)
Fixpoint checkFrom (reversedToolCallAssertions : list (ToolCallAssertion World)) (i : nat)
  : Async World Result :=
  match reversedToolCallAssertions with
  | [] => ret {| output := {| toolCallOrderSatisfied := true |};
                 reason := None; error := None; status := Some success |}
  | toolCallAssertion :: rest =>
      let checkCall : Async World Result :=
        match find (fun call => String.eqb (tc_name call) (name toolCallAssertion))
                   reversedActualToolCalls with
        | None => ret (notCalled true toolCallAssertion)
        | Some actualToolCall =>
            match assertion toolCallAssertion with
            | None => checkFrom rest (S i)
            | Some assert =>
                fun w =>
                  let (p, w') := assert actualToolCall w in
                  match p with
                  | Resolved (Some false) => (Returned (assertionFailed toolCallAssertion None), w')
                  | Resolved _ => checkFrom rest (S i) w'
                  | Rejected e =>
                      (Returned (assertionFailed toolCallAssertion (Some (caught e))), w')
                  end
            end
        end in
      match assertOrder with
      | Some true =>
          match nth_error reversedActualToolCalls i with
          | None => ret (notCalled false toolCallAssertion)
          | Some correspondingActualToolCall =>
              if negb (String.eqb (tc_name correspondingActualToolCall)
                                  (name toolCallAssertion))
              then ret (outOfOrder correspondingActualToolCall toolCallAssertion)
              else checkCall
          end
      | _ => checkCall
      end
  end.

End Loop.

(** [aiToolsCalled] *)
Definition aiToolsCalled (fresh : nat) (assertOrder : option bool)
  (toolCalls : list (ToolCallAssertion World))
  : Criterion.Criterion World ToolCallsCriterionOutput :=
  {| Criterion.ref := fresh;
     Criterion.name := "Tools Called";
     Criterion.evaluate := fun messages =>
       settle (
         if (length toolCalls =? 0)%nat then
           ret {| output := {| toolCallOrderSatisfied := true |};
                  reason := Some "No tool calls to check";
                  error := None;
                  status := Some success |}
         else
           match extractToolCallsFromMessages messages with
           | Thrown e => throw e
           | Returned actualToolCalls =>
               checkFrom assertOrder (rev actualToolCalls) (rev toolCalls) 0
           end) |}.

End WithWorld.
End ToolsCalled.

(** ** Vocabulary of the properties *)

(** The view of a transcript the synthetic user is given, as the
    specification words it: user messages turned into assistant messages
    of the same content, assistant messages into user messages of the
    same content, system and tool messages dropped, the order kept. *)
Inductive RoleSwapped : list Message -> list UserOrAIMessage -> Prop :=
| swapped_nil : RoleSwapped [] []
| swapped_user u t v :
    RoleSwapped t v ->
    RoleSwapped (User u :: t) (OfAI (mkAIMessage (user_content u) None None) :: v)
| swapped_assistant a t v :
    RoleSwapped t v ->
    RoleSwapped (Assistant a :: t) (OfUser (mkUserMessage (ai_content a)) :: v)
| swapped_tool m t v : RoleSwapped t v -> RoleSwapped (Tool m :: t) v
| swapped_system m t v : RoleSwapped t v -> RoleSwapped (System m :: t) v.

(** [{ role: 'user', content: userResponse.content }] *)
Definition userTurn (userResponse : UserMessage) : Message :=
  User (mkUserMessage (user_content userResponse)).

(** [agentResponse.message] *)
Definition agentTurn (agentResponse : AgentInvocationResult) : Message :=
  Assistant (message_of agentResponse).

(** Messages that go user, assistant, user, assistant, ... *)
Fixpoint alternating (msgs : list Message) : Prop :=
  match msgs with
  | [] => True
  | User _ :: Assistant _ :: msgs' => alternating msgs'
  | _ => False
  end.

Definition isRespond (c : Call) : bool :=
  match c with CallRespond _ => true | _ => false end.

Definition isInvoke (c : Call) : bool :=
  match c with CallInvoke _ => true | _ => false end.

(** How many times the synthetic user and the agent were called. *)
Definition respondCalls (cs : list Call) : nat := length (filter isRespond cs).
Definition invokeCalls (cs : list Call) : nat := length (filter isInvoke cs).

Section Conversation.
Context {World Any : Type}.
Variable user : Segment.SyntheticUser World.
Variable until : Criterion.Criterion World Any.
Variable agent : Agent World.

(** [Turns t w msgs rs cs w']: from the transcript [t] and the world [w],
    the synthetic user, the agent and [until] take turns, every promise
    resolving: the user answers the flipped transcript, the agent answers
    the transcript with that answer added, [until] is evaluated on the
    transcript with both added.  [msgs] are the messages added, [rs] the
    results of [until], one for each turn, [cs] the calls made and [w']
    the world at the end. *)
Inductive Turns : list Message -> World -> list Message -> list (CriterionResult Any) ->
                  list Call -> World -> Prop :=
| turns_done t w : Turns t w [] [] [] w
| turns_next t w u w1 a w2 r w3 msgs rs cs w' :
    Segment.respond user (Segment.flipRoles t) w = (Resolved u, w1) ->
    invoke agent (t ++ [userTurn u]) w1 = (Resolved a, w2) ->
    Criterion.evaluate until ((t ++ [userTurn u]) ++ [agentTurn a]) w2 = (Resolved r, w3) ->
    Turns ((t ++ [userTurn u]) ++ [agentTurn a]) w3 msgs rs cs w' ->
    Turns t w (userTurn u :: agentTurn a :: msgs) (r :: rs)
          (CallRespond (Segment.flipRoles t)
             :: CallInvoke (t ++ [userTurn u])
             :: CallEvaluate (Criterion.ref until) ((t ++ [userTurn u]) ++ [agentTurn a])
             :: cs) w'.

End Conversation.

(** The criterion [c] has been called on some transcript. *)
Definition evaluated {World Any : Type} (c : Criterion.Criterion World Any) (cs : list Call)
  : Prop :=
  exists ms, In (CallEvaluate (Criterion.ref c) ms) cs.

(** The segments [segment.ts] exports. *)
Inductive Exported {World Any : Type} : Segment.Segment World Any -> Prop :=
| exported_message m : Exported (Segment.message m)
| exported_agentResponse : Exported Segment.agentResponse
| exported_aiEval c : Exported (Segment.aiEval c)
| exported_userSimulation user max until : Exported (Segment.userSimulation user max until).

(** The message entries of resolved results, in their order. *)
Definition resultMessages {World Any : Type}
  (results : list (EvalRunner.EvaluatedSegment World Any)) : list Message :=
  flat_map (fun r => match r with
                     | EvalRunner.type_message m => [m]
                     | EvalRunner.type_eval _ => []
                     end) results.

Definition isFactory (c : Call) : bool :=
  match c with CallFactory => true | _ => false end.

(** How many times the agent factory was called. *)
Definition factoryCalls (cs : list Call) : nat := length (filter isFactory cs).


(** The tool calls the assistant messages of a transcript carry, in their
    order, as [extractToolCallsFromMessages] first builds them. *)
Definition assistantCalls (messages : list Message) : list ToolCall :=
  flat_map (fun message => match message with
                           | Assistant a => ToolsCalled.callsOf a
                           | _ => []
                           end) messages.

(** The contents of the tool messages of a transcript. *)
Definition toolContents (messages : list Message) : list JsRecord :=
  flat_map (fun message => match message with
                           | Tool m => [tool_content m]
                           | _ => []
                           end) messages.

(** ** Stub collaborators

    A stub agent, a stub synthetic user and three criteria over a world
    that counts the calls made to it. *)

Module Stub.

Definition World : Type := nat.

(** An agent that always answers [hello]. *)
Definition agent : Agent World :=
  {| invoke := fun _ w =>
       (Resolved {| message_of := mkAIMessage "hello" None None |}, S w) |}.

(** A synthetic user that always says [hi]. *)
Definition user : Segment.SyntheticUser World :=
  {| Segment.respond := fun _ w => (Resolved (mkUserMessage "hi"), S w) |}.

Definition result (s : option Status) : CriterionResult unit :=
  {| output := tt; reason := None; error := None; status := s |}.

(** A criterion that always fails. *)
Definition neverMet : Criterion.Criterion World unit :=
  {| Criterion.ref := 1;
     Criterion.name := "never met";
     Criterion.evaluate := fun _ w =>
       (Resolved {| output := tt; reason := Some "not yet"; error := None;
                    status := Some failure |}, S w) |}.

(** Another object with the name and the [evaluate] of [neverMet]. *)
Definition neverMetCopy : Criterion.Criterion World unit :=
  {| Criterion.ref := 5;
     Criterion.name := Criterion.name neverMet;
     Criterion.evaluate := Criterion.evaluate neverMet |}.

(** A criterion that leaves the status undetermined. *)
Definition undetermined : Criterion.Criterion World unit :=
  {| Criterion.ref := 2;
     Criterion.name := "undetermined";
     Criterion.evaluate := fun _ w => (Resolved (result None), S w) |}.

(** A criterion met once the transcript holds [n] messages. *)
Definition atLeast (n : nat) : Criterion.Criterion World unit :=
  {| Criterion.ref := 3;
     Criterion.name := "long enough";
     Criterion.evaluate := fun messages w =>
       (Resolved (result (if (n <=? length messages)%nat then Some success else Some failure)),
        S w) |}.

Definition start : Run World := {| world := 0; calls := [] |}.

Definition hi : Message := User (mkUserMessage "hi").
Definition hello : Message := Assistant (mkAIMessage "hello" None None).

(** The calls of two turns of [user], [agent] and [atLeast 4] from an
    empty transcript. *)
Definition twoTurns : list Call :=
  [CallRespond [];
   CallInvoke [hi];
   CallEvaluate 3 [hi; hello];
   CallRespond [OfAI (mkAIMessage "hi" None None); OfUser (mkUserMessage "hello")];
   CallInvoke [hi; hello; hi];
   CallEvaluate 3 [hi; hello; hi; hello]].

End Stub.

(** ** More stub collaborators: failures and tool calls *)

Module StubTools.

(** An agent that answers as long as the transcript is shorter than three
    messages and rejects after that. *)
Definition flakyAgent : Agent Stub.World :=
  {| invoke := fun messages w =>
       if (3 <=? length messages)%nat
       then (Rejected (mkError "agent down"), S w)
       else (Resolved {| message_of := mkAIMessage "hello" None None |}, S w) |}.


(** A factory that makes the stub agent. *)
Definition factory : Stub.World -> Promise (Agent Stub.World) * Stub.World :=
  fun w => (Resolved Stub.agent, S w).

Definition search : ToolCall :=
  {| tc_id := None; tc_name := "search"; tc_args := [("q", UString "rocq")];
     tc_result := None |}.

Definition fetch : ToolCall :=
  {| tc_id := None; tc_name := "fetch"; tc_args := []; tc_result := None |}.

(** A call recorded in the context of a message, with its result. *)
Definition fetched : ToolCall :=
  {| tc_id := Some "call-2"; tc_name := "fetch"; tc_args := [];
     tc_result := Some [("status", UNumber 200)] |}.

Definition searchResult : JsRecord := [("name", UString "search"); ("hits", UNumber 3)].

Definition asks (calls : list ToolCall) : Message :=
  Assistant (mkAIMessage "" (Some calls) None).

Definition answers (content : JsRecord) : Message :=
  Tool {| tool_call_id := None; tool_name := "search"; tool_content := content |}.

(** An assistant message with one call, its result, and a second
    assistant message whose call is recorded in its context. *)
Definition transcript : list Message :=
  [Stub.hi;
   asks [search];
   answers searchResult;
   Assistant (mkAIMessage "done" None (Some (mkContext None (Some [fetched]))))].

(** Two calls in one message, and then the result of the first. *)
Definition twoCalls : list Message :=
  [Stub.hi; asks [search; fetch]; answers searchResult].

(** An assertion on the arguments of a call: it has some. *)
Definition hasArgs : ToolCall -> Stub.World -> Promise (option bool) * Stub.World :=
  fun call w => (Resolved (Some (negb (length (tc_args call) =? 0)%nat)), S w).

Definition searched : ToolsCalled.ToolCallAssertion Stub.World :=
  ToolsCalled.mkToolCallAssertion "search" (Some hasArgs).

Definition fetchedToo : ToolsCalled.ToolCallAssertion Stub.World :=
  ToolsCalled.mkToolCallAssertion "fetch" None.

End StubTools.

(** * Properties *)

(** ** Criterion combinators *)

Section CriterionFacts.
Context {World : Type}.

Lemma truthy_nonempty (a : string) : a <> "" -> truthy (Some a) = true.
Proof.
  destruct a as [|ch a']; [congruence | reflexivity].
Qed.

(** The status [negate] gives, from the status of the negated criterion. *)
Lemma negate_status_cases (s : option Status) :
  (if is_success s then Some failure
   else if is_failure s then Some success else s)
  = match s with
    | Some success => Some failure
    | Some failure => Some success
    | None => None
    end.
Proof.
  destruct s as [[|]|]; reflexivity.
Qed.

(** C7. [negate c] has the name of [c]; where [c] resolves, [negate c]
    resolves in the same world with the same output, success turned into
    failure, failure into success and an undetermined status left as it
    is; negating twice gives back the status of [c]. *)
Theorem negate_flips_status {T : Type} (fresh fresh' : nat)
  (c : Criterion.Criterion World T) (messages : list Message)
  (w w' : World) (result : CriterionResult T)
  (Hc : Criterion.evaluate c messages w = (Resolved result, w')) :
  Criterion.name (Criterion.negate fresh c) = Criterion.name c /\
  (exists negated,
     Criterion.evaluate (Criterion.negate fresh c) messages w = (Resolved negated, w') /\
     output negated = output result /\
     status negated = match status result with
                      | Some success => Some failure
                      | Some failure => Some success
                      | None => None
                      end) /\
  (exists twice,
     Criterion.evaluate (Criterion.negate fresh' (Criterion.negate fresh c)) messages w
       = (Resolved twice, w') /\
     output twice = output result /\
     status twice = status result).
Proof.
  split; [reflexivity|]. split.
  - eexists. split.
    + cbn. rewrite Hc. cbn. reflexivity.
    + cbn. split; [reflexivity | apply negate_status_cases].
  - eexists. split.
    + cbn. rewrite Hc. cbn. reflexivity.
    + cbn. split; [reflexivity|]. now destruct (status result) as [[|]|].
Qed.

(** C6. Where [c1] and then [c2] resolve, [and c1 c2] resolves: its status
    is success exactly when both statuses are success and failure in every
    other case, its name is the two names around [" AND "], its output the
    pair of outputs and its reason the reasons that are not empty, joined
    by [" AND "]. *)
Theorem and_combines_results {T U : Type} (fresh : nat)
  (c1 : Criterion.Criterion World T) (c2 : Criterion.Criterion World U)
  (messages : list Message) (w w1 w2 : World)
  (result1 : CriterionResult T) (result2 : CriterionResult U)
  (H1 : Criterion.evaluate c1 messages w = (Resolved result1, w1))
  (H2 : Criterion.evaluate c2 messages w1 = (Resolved result2, w2)) :
  Criterion.name (Criterion.and fresh c1 c2)
    = (Criterion.name c1 ++ " AND " ++ Criterion.name c2)%string /\
  exists both,
    Criterion.evaluate (Criterion.and fresh c1 c2) messages w = (Resolved both, w2) /\
    (status both = Some success <->
       status result1 = Some success /\ status result2 = Some success) /\
    (status both = Some failure <->
       ~ (status result1 = Some success /\ status result2 = Some success)) /\
    output both = (output result1, output result2) /\
    (forall a b, reason result1 = Some a -> a <> "" ->
                 reason result2 = Some b -> b <> "" ->
                 reason both = Some (a ++ " AND " ++ b)%string) /\
    (forall a, reason result1 = Some a -> a <> "" ->
               reason result2 = None \/ reason result2 = Some "" ->
               reason both = Some a) /\
    (forall b, reason result1 = None \/ reason result1 = Some "" ->
               reason result2 = Some b -> b <> "" ->
               reason both = Some b) /\
    (reason result1 = None \/ reason result1 = Some "" ->
     reason result2 = None \/ reason result2 = Some "" ->
     reason both = Some "").
Proof.
  split; [reflexivity|].
  eexists. split; [cbn; rewrite H1, H2; cbn; reflexivity|].
  cbn -[truthy]. repeat split.
  - destruct (status result1) as [[|]|]; cbn in *; congruence.
  - destruct (status result1) as [[|]|], (status result2) as [[|]|]; cbn in *; congruence.
  - intros [-> ->]. reflexivity.
  - destruct (status result1) as [[|]|], (status result2) as [[|]|]; cbn; intros H [? ?];
      congruence.
  - destruct (status result1) as [[|]|], (status result2) as [[|]|]; cbn; intros H;
      try reflexivity; exfalso; apply H; split; reflexivity.
  - intros a b Ha Hna Hb Hnb. rewrite Ha, Hb.
    now rewrite (truthy_nonempty a Hna), (truthy_nonempty b Hnb).
  - intros a Ha Hna Hb. rewrite Ha, (truthy_nonempty a Hna).
    now destruct Hb as [-> | ->].
  - intros b Ha Hb Hnb. rewrite Hb, (truthy_nonempty b Hnb).
    now destruct Ha as [-> | ->].
  - intros Ha Hb. now destruct Ha as [-> | ->], Hb as [-> | ->].
Qed.

End CriterionFacts.

(** ** Segments *)

Section SegmentFacts.
Context {World Any : Type}.

Local Abbreviation Promises := (list (Segment.SegmentEvaluationPromise World Any)).

Lemma messagesOf_app (a b : Promises) :
  Segment.messagesOf (a ++ b) = Segment.messagesOf a ++ Segment.messagesOf b.
Proof.
  unfold Segment.messagesOf. apply flat_map_app.
Qed.

Lemma messagesOf_messages (msgs : list Message) :
  Segment.messagesOf (World := World) (Any := Any) (map Segment.type_message msgs) = msgs.
Proof.
  induction msgs as [|m msgs IH]; [reflexivity|].
  cbn. f_equal. exact IH.
Qed.

(** C5. On an empty transcript [aiEval] throws without calling the
    criterion: the run is left as it was, and a scenario that starts with
    [aiEval] is aborted by that error.  On a transcript that is not empty
    [aiEval] records the call and returns one eval entry with the
    criterion and the promise of its [evaluate], whether that promise is
    resolved or rejected. *)
Theorem aiEval_needs_messages (criterion : Criterion.Criterion World Any)
  (agent : Agent World) (s : Run World) :
  Segment.evaluate (Segment.aiEval criterion) agent [] s
    = (Thrown (mkError "Criterion evaluation appears before any messages"), s) /\
  (forall segments,
     EvalRunner.evaluate (EvalRunner.the_agent agent) (Segment.aiEval criterion :: segments) s
     = (Thrown (mkError "Criterion evaluation appears before any messages"), s)) /\
  forall (m : Message) (rest : list Message),
    let previousActualMessages := m :: rest in
    let started := Criterion.evaluate criterion previousActualMessages (world s) in
    Segment.evaluate (Segment.aiEval criterion) agent previousActualMessages s
      = (Returned [Segment.type_eval criterion (fst started)],
         {| world := snd started;
            calls := calls s ++ [CallEvaluate (Criterion.ref criterion)
                                              previousActualMessages] |}).
Proof.
  split; [reflexivity|]. split; [reflexivity|].
  intros m rest. cbn. unfold bind, call.
  destruct (Criterion.evaluate criterion (m :: rest) (world s)) as [p w].
  reflexivity.
Qed.

Lemma flipRoles_swapped (t : list Message) : RoleSwapped t (Segment.flipRoles t).
Proof.
  induction t as [|m t IH]; [constructor|].
  destruct m; cbn; constructor; exact IH.
Qed.

Lemma swapped_flipRoles (t : list Message) (v : list UserOrAIMessage) :
  RoleSwapped t v -> v = Segment.flipRoles t.
Proof.
  induction 1; subst; reflexivity.
Qed.

Section ConversationFacts.
Variable user : Segment.SyntheticUser World.
Variable until : Criterion.Criterion World Any.
Variable agent : Agent World.

Local Abbreviation unmet := (fun r : CriterionResult Any => is_success (status r) = false).

Lemma turns_length t w msgs rs cs w' :
  Turns user until agent t w msgs rs cs w' -> length msgs = 2 * length rs.
Proof.
  induction 1 as [|? ? ? ? ? ? ? ? ? ? ? ? _ _ _ _ IH]; cbn; [reflexivity | lia].
Qed.

Lemma turns_alternating t w msgs rs cs w' :
  Turns user until agent t w msgs rs cs w' -> alternating msgs.
Proof.
  induction 1; cbn; auto.
Qed.

Lemma turns_calls t w msgs rs cs w' :
  Turns user until agent t w msgs rs cs w' ->
  respondCalls cs = length rs /\ invokeCalls cs = length rs.
Proof.
  unfold respondCalls, invokeCalls.
  induction 1 as [|? ? ? ? ? ? ? ? ? ? ? ? _ _ _ _ [IHr IHi]]; cbn; [split; reflexivity|].
  now rewrite IHr, IHi.
Qed.

(** The last result of [until] is its result on the whole transcript, and
    that evaluation is the last call made. *)
Lemma turns_last rs0 : forall r t w msgs cs w',
  Turns user until agent t w msgs (rs0 ++ [r]) cs w' ->
  exists w0 cs0,
    Criterion.evaluate until (t ++ msgs) w0 = (Resolved r, w') /\
    cs = cs0 ++ [CallEvaluate (Criterion.ref until) (t ++ msgs)].
Proof.
  induction rs0 as [|x rs0 IH]; intros r t w msgs cs w' HT.
  - cbn in HT.
    inversion HT as [|? ? u w1 a w2 ? w3 msgs0 ? cs0 ? Hu Ha Hr HT']; subst.
    inversion HT'; subst.
    exists w2, [CallRespond (Segment.flipRoles t); CallInvoke (t ++ [userTurn u])].
    rewrite <- app_assoc in Hr. cbn in Hr. split; [exact Hr|].
    rewrite <- app_assoc. reflexivity.
  - cbn in HT.
    inversion HT as [|? ? u w1 a w2 ? w3 msgs0 ? cs0 ? Hu Ha Hr HT']; subst.
    destruct (IH _ _ _ _ _ _ HT') as (w0 & cs1 & He & Hcs).
    rewrite <- !app_assoc in He, Hcs. cbn in He, Hcs.
    exists w0. eexists (_ :: _ :: _ :: cs1). split; [exact He|].
    cbn. rewrite Hcs. rewrite <- app_assoc. reflexivity.
Qed.

(** Collaborators that never reject, with an [until] that is never met,
    can take any number of turns. *)
Lemma turns_exist
  (Huser : forall ms w, exists u w', Segment.respond user ms w = (Resolved u, w'))
  (Hagent : forall ms w, exists a w', invoke agent ms w = (Resolved a, w'))
  (Huntil : forall ms w, exists r w',
      Criterion.evaluate until ms w = (Resolved r, w') /\ is_success (status r) = false)
  (n : nat) : forall t w,
  exists msgs rs cs w',
    Turns user until agent t w msgs rs cs w' /\ length rs = n /\ Forall unmet rs.
Proof.
  induction n as [|n IH]; intros t w.
  - exists [], [], [], w. repeat split; constructor.
  - destruct (Huser (Segment.flipRoles t) w) as (u & w1 & Hu).
    destruct (Hagent (t ++ [userTurn u]) w1) as (a & w2 & Ha).
    destruct (Huntil ((t ++ [userTurn u]) ++ [agentTurn a]) w2) as (r & w3 & Hr & Hunmet).
    destruct (IH ((t ++ [userTurn u]) ++ [agentTurn a]) w3)
      as (msgs & rs & cs & w' & HT & Hlen & Hall).
    do 4 eexists. split; [eapply turns_next; eassumption|].
    split; [cbn; now rewrite Hlen | now constructor].
Qed.

End ConversationFacts.

Section UserSimulation.
Variable user : Segment.SyntheticUser World.
Variable until : Criterion.Criterion World Any.
Variable maxIterations : Z.
Variable agent : Agent World.
Variable previousActualMessages : list Message.

Local Abbreviation loop :=
  (Segment.simulationLoop user until maxIterations agent previousActualMessages).

(** One iteration in which the three awaited promises resolve. *)
Lemma loop_step (fuel : nat) (i : Z) (pushed : Promises) (s : Run World)
  (u : UserMessage) (w1 : World) (a : AgentInvocationResult) (w2 : World)
  (r : CriterionResult Any) (w3 : World) :
  let t := previousActualMessages ++ Segment.messagesOf pushed in
  (i < maxIterations)%Z ->
  Segment.respond user (Segment.flipRoles t) (world s) = (Resolved u, w1) ->
  invoke agent (t ++ [userTurn u]) w1 = (Resolved a, w2) ->
  Criterion.evaluate until ((t ++ [userTurn u]) ++ [agentTurn a]) w2 = (Resolved r, w3) ->
  let pushed' := (pushed ++ [Segment.type_message (userTurn u)])
                   ++ [Segment.type_message (agentTurn a)] in
  let s' := {| world := w3;
               calls := ((calls s ++ [CallRespond (Segment.flipRoles t)])
                           ++ [CallInvoke (t ++ [userTurn u])])
                          ++ [CallEvaluate (Criterion.ref until)
                                           ((t ++ [userTurn u]) ++ [agentTurn a])] |} in
  loop (S fuel) i pushed s =
    if is_success (status r) || (i =? maxIterations - 1)%Z
    then (Returned (pushed' ++ [Segment.type_eval until (Resolved r)]), s')
    else loop fuel (i + 1)%Z pushed' s'.
Proof.
  intros t Hi Hu Ha Hr pushed' s'.
  apply Z.ltb_lt in Hi.
  cbn [Segment.simulationLoop]. rewrite Hi.
  unfold bind at 1. unfold call at 1. fold t. rewrite Hu.
  unfold bind at 1. cbn [await ret].
  unfold bind at 1. unfold call at 1. cbn [world calls]. fold (userTurn u). rewrite Ha.
  unfold bind at 1. cbn [await ret].
  unfold bind at 1. unfold call at 1. cbn [world calls]. fold (agentTurn a). rewrite Hr.
  unfold bind at 1. cbn [await ret].
  fold pushed'. fold s'.
  destruct (is_success (status r)); [reflexivity|].
  cbn [orb]. destruct (i =? maxIterations - 1)%Z; reflexivity.
Qed.

(** The loop takes the turns of the conversation up to the first one at
    which [until] is met or the counter is at [maxIterations - 1]. *)
Lemma loop_turns (rs0 : list (CriterionResult Any)) :
  forall r t w msgs cs w' fuel i pushed c0,
    Turns user until agent t w msgs (rs0 ++ [r]) cs w' ->
    t = previousActualMessages ++ Segment.messagesOf pushed ->
    Forall (fun x => is_success (status x) = false) rs0 ->
    (length rs0 < fuel)%nat ->
    (i + Z.of_nat (length rs0) < maxIterations)%Z ->
    is_success (status r) = true \/ (i + Z.of_nat (length rs0) = maxIterations - 1)%Z ->
    loop fuel i pushed {| world := w; calls := c0 |}
    = (Returned (pushed ++ map Segment.type_message msgs
                        ++ [Segment.type_eval until (Resolved r)]),
       {| world := w'; calls := c0 ++ cs |}).
Proof.
  induction rs0 as [|x rs0 IH];
    intros r t w msgs cs w' fuel i pushed c0 HT Ht Hall Hfuel Hi Hstop;
    cbn in HT;
    inversion HT as [|? ? u w1 a w2 ? w3 msgs0 ? cs0 ? Hu Ha Hr HT']; subst;
    (destruct fuel as [|fuel]; [cbn in Hfuel; lia|]);
    cbn [length] in *;
    match type of Hr with
    | _ = (Resolved ?r1, _) =>
        pose proof (loop_step fuel i pushed {| world := w; calls := c0 |} u w1 a w2 r1 w3) as L
    end;
    cbn zeta in L; cbn [world calls] in L;
    specialize (L ltac:(lia) Hu Ha Hr); rewrite L; clear L.
  - inversion HT'; subst.
    replace (is_success (status r) || (i =? maxIterations - 1)%Z) with true.
    + cbn [world calls map]. rewrite <- !app_assoc. reflexivity.
    + symmetry. apply orb_true_iff.
      destruct Hstop as [Hs | Hs]; [left; exact Hs | right; apply Z.eqb_eq; lia].
  - inversion Hall as [|? ? Hx Hall']; subst.
    rewrite Hx. replace (i =? maxIterations - 1)%Z with false
      by (symmetry; apply Z.eqb_neq; lia).
    cbn [orb world calls].
    rewrite (IH r _ w3 msgs0 cs0 w' fuel (i + 1)%Z _ _ HT').
    + cbn [map]. rewrite <- !app_assoc. reflexivity.
    + rewrite !messagesOf_app. cbn. rewrite <- !app_assoc. reflexivity.
    + exact Hall'.
    + lia.
    + lia.
    + destruct Hstop as [Hs | Hs]; [left; exact Hs | right; lia].
Qed.

(** The fuel follows the counter: it is out only when the loop test
    fails, and one iteration takes one unit of it. *)
Lemma fuel_follows_counter (fuel : nat) (i : Z) :
  fuel = Z.to_nat (maxIterations - i) ->
  (fuel = 0 -> (i <? maxIterations)%Z = false) /\
  (forall fuel', fuel = S fuel' -> fuel' = Z.to_nat (maxIterations - (i + 1))).
Proof.
  intros Hfuel. split.
  - intros H0. apply Z.ltb_ge. lia.
  - intros fuel' HS. lia.
Qed.

(** When the loop test fails the loop pushes nothing and calls nobody. *)
Lemma loop_not_entered (fuel : nat) (i : Z) (pushed : Promises) (s : Run World) :
  (maxIterations <= i)%Z -> loop fuel i pushed s = (Returned pushed, s).
Proof.
  intros Hi. destruct fuel as [|fuel]; [reflexivity|].
  cbn [Segment.simulationLoop].
  replace (i <? maxIterations)%Z with false by (symmetry; apply Z.ltb_ge; exact Hi).
  reflexivity.
Qed.


(** The loop only adds to the record of calls. *)
Lemma loop_calls_extend (fuel : nat) : forall i pushed s,
  exists cs, calls (snd (loop fuel i pushed s)) = calls s ++ cs.
Proof.
  induction fuel as [|fuel IH]; intros i pushed s.
  - exists []. cbn. now rewrite app_nil_r.
  - cbn [Segment.simulationLoop].
    destruct (i <? maxIterations)%Z; [|exists []; cbn; now rewrite app_nil_r].
    unfold bind, call.
    destruct (Segment.respond user _ (world s)) as [[u|e] w1]; cbn;
      [|eexists; reflexivity].
    destruct (invoke agent _ w1) as [[a|e] w2]; cbn;
      [|eexists; rewrite <- !app_assoc; reflexivity].
    destruct (Criterion.evaluate until _ w2) as [[r|e] w3]; cbn;
      [|eexists; rewrite <- !app_assoc; reflexivity].
    destruct (is_success (status r)); cbn;
      [eexists; rewrite <- !app_assoc; reflexivity|].
    destruct (i =? maxIterations - 1)%Z; cbn;
      [eexists; rewrite <- !app_assoc; reflexivity|].
    match goal with
    | |- context [loop fuel ?i' ?p' ?s'] => destruct (IH i' p' s') as [cs Hcs]
    end.
    rewrite Hcs. cbn. eexists. rewrite <- !app_assoc. reflexivity.
Qed.

(** An eval entry the loop returns was pushed before, or its criterion
    was called during the loop. *)
Lemma loop_eval_entries (fuel : nat) : forall i pushed s out s',
  loop fuel i pushed s = (Returned out, s') ->
  forall c p, In (Segment.type_eval c p) out ->
    In (Segment.type_eval c p) pushed \/
    exists ms, In (CallEvaluate (Criterion.ref c) ms) (calls s').
Proof.
  induction fuel as [|fuel IH]; intros i pushed s out s' Hrun c p Hin.
  - cbn in Hrun. inversion Hrun; subst. now left.
  - cbn [Segment.simulationLoop] in Hrun.
    destruct (i <? maxIterations)%Z; [|inversion Hrun; subst; now left].
    unfold bind, call in Hrun.
    destruct (Segment.respond user _ (world s)) as [[u|e] w1]; cbn in Hrun;
      [|discriminate].
    destruct (invoke agent _ w1) as [[a|e] w2]; cbn in Hrun; [|discriminate].
    destruct (Criterion.evaluate until _ w2) as [[r|e] w3]; cbn in Hrun; [|discriminate].
    assert (Hstop : forall (out0 : Promises) (cs0 : list Call) ms,
               out = (out0 ++ [Segment.type_eval until (Resolved r)]) ->
               out0 = (pushed ++ [Segment.type_message (userTurn u)])
                        ++ [Segment.type_message (agentTurn a)] ->
               calls s' = cs0 ++ [CallEvaluate (Criterion.ref until) ms] ->
               In (Segment.type_eval c p) pushed \/
               exists ms, In (CallEvaluate (Criterion.ref c) ms) (calls s')).
    { intros out0 cs0 ms -> -> Hcalls.
      rewrite !in_app_iff in Hin. cbn in Hin.
      destruct Hin as [[[Hin | [Hin | []]] | [Hin | []]] | [Hin | []]];
        try discriminate; [now left|].
      inversion Hin; subst. right. exists ms. rewrite Hcalls.
      apply in_or_app. right. now left. }
    destruct (is_success (status r)).
    { inversion Hrun; subst. eapply Hstop; reflexivity. }
    destruct (i =? maxIterations - 1)%Z.
    { inversion Hrun; subst. eapply Hstop; reflexivity. }
    destruct (IH _ _ _ _ _ Hrun c p Hin) as [Hpushed | Hcalled]; [|now right].
    rewrite !in_app_iff in Hpushed. cbn in Hpushed.
    destruct Hpushed as [[Hpushed | [Hpushed | []]] | [Hpushed | []]];
      try discriminate. now left.
Qed.

(** C8. An iteration entered with the entries [pushed] calls the synthetic
    user first, on the transcript so far (the messages before the segment
    and those pushed) with the roles of user and assistant messages
    swapped, their contents kept, system and tool messages dropped and
    the order kept; that list is what [respond] receives. *)
Theorem synthetic_user_sees_swapped_roles
  (fuel : nat) (i : Z) (pushed : Promises) (s : Run World)
  (Hi : (i < maxIterations)%Z) :
  let transcript := previousActualMessages ++ Segment.messagesOf pushed in
  exists view rest,
    RoleSwapped transcript view /\
    (forall view', RoleSwapped transcript view' -> view' = view) /\
    calls (snd (loop (S fuel) i pushed s)) = calls s ++ CallRespond view :: rest /\
    (forall e w1,
       Segment.respond user view (world s) = (Rejected e, w1) ->
       loop (S fuel) i pushed s
       = (Thrown e, {| world := w1; calls := calls s ++ [CallRespond view] |})).
Proof.
  intros transcript.
  exists (Segment.flipRoles transcript).
  assert (Hrest : exists rest,
             calls (snd (loop (S fuel) i pushed s))
             = calls s ++ CallRespond (Segment.flipRoles transcript) :: rest).
  { cbn [Segment.simulationLoop]. fold transcript.
    replace (i <? maxIterations)%Z with true by (symmetry; now apply Z.ltb_lt).
    unfold bind, call.
    destruct (Segment.respond user _ (world s)) as [[u|e] w1]; cbn;
      [|eexists; reflexivity].
    destruct (invoke agent _ w1) as [[a|e] w2]; cbn;
      [|eexists; rewrite <- !app_assoc; reflexivity].
    destruct (Criterion.evaluate until _ w2) as [[r|e] w3]; cbn;
      [|eexists; rewrite <- !app_assoc; reflexivity].
    destruct (is_success (status r)); cbn;
      [eexists; rewrite <- !app_assoc; reflexivity|].
    destruct (i =? maxIterations - 1)%Z; cbn;
      [eexists; rewrite <- !app_assoc; reflexivity|].
    match goal with
    | |- context [loop fuel ?i' ?p' ?s'] =>
        destruct (loop_calls_extend fuel i' p' s') as [cs Hcs]
    end.
    rewrite Hcs. cbn. eexists. rewrite <- !app_assoc. reflexivity. }
  destruct Hrest as [rest Hrest]. exists rest.
  split; [apply flipRoles_swapped|].
  split; [intros view' Hv; now apply swapped_flipRoles|].
  split; [exact Hrest|].
  intros e w1 He.
  cbn [Segment.simulationLoop]. fold transcript.
  replace (i <? maxIterations)%Z with true by (symmetry; now apply Z.ltb_lt).
  unfold bind at 1. unfold call at 1. rewrite He. reflexivity.
Qed.

End UserSimulation.

Lemma is_success_false (st : option Status) : st <> Some success <-> is_success st = false.
Proof.
  destruct st as [[|]|]; cbn; split; congruence.
Qed.

Lemma unmet_all (rs : list (CriterionResult Any)) :
  Forall (fun x => status x <> Some success) rs ->
  Forall (fun x => is_success (status x) = false) rs.
Proof.
  intros H. eapply Forall_impl; [|exact H]. intros x. apply is_success_false.
Qed.

(** C2. When [until] is first met at turn [k], not later than the last
    turn allowed, the segment returns the [2k] messages of the first [k]
    turns, user and agent in turn, and then one eval entry that holds the
    result of that evaluation as a resolved promise; the synthetic user
    and the agent are called [k] times each and no more. *)
Theorem userSimulation_stops_when_met
  (user : Segment.SyntheticUser World) (max : option Z)
  (until : Criterion.Criterion World Any) (agent : Agent World)
  (previousActualMessages : list Message) (w : World) (c0 : list Call)
  (msgs : list Message) (before : list (CriterionResult Any))
  (met : CriterionResult Any) (cs : list Call) (w' : World)
  (Hturns : Turns user until agent previousActualMessages w msgs (before ++ [met]) cs w')
  (Hbefore : Forall (fun x => status x <> Some success) before)
  (Hmet : status met = Some success)
  (Hk : (Z.of_nat (length before + 1) <= Segment.maxIterationsOf max)%Z) :
  let k := length before + 1 in
  Segment.evaluate (Segment.userSimulation user max until) agent previousActualMessages
                   {| world := w; calls := c0 |}
  = (Returned (map Segment.type_message msgs ++ [Segment.type_eval until (Resolved met)]),
     {| world := w'; calls := c0 ++ cs |}) /\
  length msgs = 2 * k /\
  alternating msgs /\
  respondCalls cs = k /\
  invokeCalls cs = k.
Proof.
  intros k. split.
  - cbn [Segment.evaluate Segment.userSimulation].
    rewrite (loop_turns user until (Segment.maxIterationsOf max) agent previousActualMessages
               before met previousActualMessages w msgs cs w' _ 0%Z [] c0 Hturns).
    + reflexivity.
    + cbn. now rewrite app_nil_r.
    + now apply unmet_all.
    + lia.
    + lia.
    + left. now rewrite Hmet.
  - pose proof (turns_length _ _ _ _ _ _ _ _ _ Hturns) as Hlen.
    pose proof (turns_calls _ _ _ _ _ _ _ _ _ Hturns) as [Hr Hi].
    rewrite length_app in Hlen, Hr, Hi. cbn [length] in Hlen, Hr, Hi.
    repeat split; try assumption.
    eapply turns_alternating; eassumption.
Qed.

(** C1, as amended.  With [max] at least 1, collaborators that never
    reject and an [until] that is never met, the segment returns: it gives
    [2 * max] messages, user and agent in turn, and then one eval entry
    that holds, as a resolved promise, the result of the last evaluation
    of [until], which is the one on the whole transcript and whose status
    is not success. *)
Theorem userSimulation_exhausts
  (user : Segment.SyntheticUser World) (max : option Z)
  (until : Criterion.Criterion World Any) (agent : Agent World)
  (previousActualMessages : list Message) (s : Run World)
  (Huser : forall ms w, exists u w', Segment.respond user ms w = (Resolved u, w'))
  (Hagent : forall ms w, exists a w', invoke agent ms w = (Resolved a, w'))
  (Huntil : forall ms w, exists r w',
      Criterion.evaluate until ms w = (Resolved r, w') /\ status r <> Some success)
  (Hmax : (1 <= Segment.maxIterationsOf max)%Z) :
  exists msgs last s' w0 cs0,
    Segment.evaluate (Segment.userSimulation user max until) agent previousActualMessages s
    = (Returned (map Segment.type_message msgs ++ [Segment.type_eval until (Resolved last)]),
       s') /\
    Z.of_nat (length msgs) = (2 * Segment.maxIterationsOf max)%Z /\
    alternating msgs /\
    status last <> Some success /\
    Criterion.evaluate until (previousActualMessages ++ msgs) w0 = (Resolved last, world s') /\
    calls s' = calls s ++ cs0
                 ++ [CallEvaluate (Criterion.ref until) (previousActualMessages ++ msgs)].
Proof.
  assert (Huntil' : forall ms w, exists r w',
             Criterion.evaluate until ms w = (Resolved r, w') /\ is_success (status r) = false).
  { intros ms w. destruct (Huntil ms w) as (r & w' & He & Hs).
    exists r, w'. split; [exact He | now apply is_success_false]. }
  destruct (turns_exist user until agent Huser Hagent Huntil'
              (Z.to_nat (Segment.maxIterationsOf max)) previousActualMessages (world s))
    as (msgs & rs & cs & w' & HT & Hlen & Hall).
  destruct (exists_last (l := rs)) as (before & last & ->).
  { intros ->. cbn in Hlen. lia. }
  rewrite length_app in Hlen. cbn [length] in Hlen.
  apply Forall_app in Hall. destruct Hall as [Hbefore Hlast].
  inversion Hlast as [|? ? Hl _]; subst.
  destruct (turns_last _ _ _ _ _ _ _ _ _ _ HT) as (w0 & cs0 & He & Hcs).
  exists msgs, last, {| world := w'; calls := calls s ++ cs |}, w0, cs0.
  split.
  - cbn [Segment.evaluate Segment.userSimulation]. destruct s as [w c0]. cbn [world calls] in *.
    rewrite (loop_turns user until (Segment.maxIterationsOf max) agent previousActualMessages
               before last previousActualMessages w msgs cs w' _ 0%Z [] c0 HT).
    + reflexivity.
    + cbn. now rewrite app_nil_r.
    + exact Hbefore.
    + lia.
    + lia.
    + right. lia.
  - pose proof (turns_length _ _ _ _ _ _ _ _ _ HT) as Hm.
    rewrite length_app in Hm. cbn [length] in Hm.
    split; [lia|].
    split; [eapply turns_alternating; eassumption|].
    split; [now apply is_success_false|].
    split; [exact He|].
    cbn [calls]. now rewrite Hcs.
Qed.

End SegmentFacts.

(** ** The eval runner *)

Section RunnerFacts.
Context {World Any : Type}.

Local Abbreviation Promises := (list (Segment.SegmentEvaluationPromise World Any)).
Local Abbreviation Entry := (EvalRunner.EvaluatedSegment World Any).

(** A run that returns went through the three stages of [evaluate]. *)
Lemma evaluate_returns (agent : EvalRunner.AgentOrFactory World)
  (segments : list (Segment.Segment World Any)) (s s' : Run World)
  (rep : EvalRunner.Report World Any) :
  EvalRunner.evaluate agent segments s = (Returned rep, s') ->
  exists _agent s0 pushed results,
    EvalRunner.evaluateSegments _agent segments [] s0 = (Returned pushed, s') /\
    (forall c, In c (calls s) -> In c (calls s0)) /\
    all (map EvalRunner.resolveEntry pushed) = Resolved results /\
    rep = EvalRunner.report pushed results.
Proof.
  unfold EvalRunner.evaluate. intros Hrun.
  unfold bind at 1 in Hrun.
  destruct (match agent with
            | EvalRunner.the_agent a => ret a
            | EvalRunner.the_factory f => p <- call CallFactory f ;; await p
            end s) as [[_agent | e] s0] eqn:Hagent; [|discriminate].
  unfold bind at 1 in Hrun.
  destruct (EvalRunner.evaluateSegments _agent segments [] s0) as [[pushed | e] s1] eqn:Hsegs;
    [|discriminate].
  unfold bind at 1 in Hrun.
  destruct (all (map EvalRunner.resolveEntry pushed)) as [results | e] eqn:Hall;
    cbn in Hrun; [|discriminate].
  inversion Hrun; subst.
  exists _agent, s0, pushed, results. repeat split; try assumption.
  intros c Hc. destruct agent as [a | f].
  - cbn in Hagent. inversion Hagent; subst. exact Hc.
  - unfold bind, call in Hagent. destruct (f (world s)) as [[a | e] w]; cbn in Hagent;
      inversion Hagent; subst. cbn. apply in_or_app. now left.
Qed.

(** Every resolved eval entry comes from a pushed entry of the same
    criterion, and every pushed entry gives a resolved one. *)
Lemma resolved_entries (pushed : Promises) : forall results,
  all (map EvalRunner.resolveEntry pushed) = Resolved results ->
  forall e, In (EvalRunner.type_eval e) results ->
    In (Segment.type_eval (EvalRunner.criterion e) (Resolved (EvalRunner.evalResult e))) pushed.
Proof.
  induction pushed as [|x pushed IH]; intros results H e Hin; cbn in H.
  - inversion H; subst. destruct Hin.
  - destruct x as [c [r | err] | m]; cbn in H; try discriminate;
      (destruct (all (map EvalRunner.resolveEntry pushed)) as [ys | err'];
       cbn in H; [|discriminate]); inversion H; subst;
      destruct Hin as [Hin | Hin]; try discriminate.
    + inversion Hin; subst. now left.
    + right. now apply (IH ys).
    + right. now apply (IH ys).
Qed.

(** What the lookups give for a criterion no resolved entry refers to. *)
Lemma lookups_absent (pushed : Promises) (results : list Entry)
  (c : Criterion.Criterion World Any) :
  (forall e, In (EvalRunner.type_eval e) results ->
             Criterion.ref (EvalRunner.criterion e) <> Criterion.ref c) ->
  let rep := EvalRunner.report pushed results in
  EvalRunner.getResults rep c = [] /\
  EvalRunner.getResult rep c = None /\
  EvalRunner.getResultOrThrow rep c
  = Thrown (mkError ("Cannot find results for criterion " ++ Criterion.name c)).
Proof.
  intros Habsent rep.
  assert (Hfind : EvalRunner.findResult results c = None).
  { unfold EvalRunner.findResult.
    destruct (find _ results) as [[m | e] |] eqn:Hf; try reflexivity.
    apply find_some in Hf. destruct Hf as [Hin Hsame].
    unfold EvalRunner.sameCriterion in Hsame. apply Nat.eqb_eq in Hsame.
    now destruct (Habsent e Hin). }
  split; [|split].
  - cbn. clear Hfind rep.
    induction results as [|[m | e] results IH]; [reflexivity | |]; cbn.
    + apply IH. intros e He. apply Habsent. now right.
    + unfold EvalRunner.sameCriterion.
      destruct (Nat.eqb_spec (Criterion.ref (EvalRunner.criterion e)) (Criterion.ref c))
        as [Heq | Hne].
      * destruct (Habsent e (or_introl eq_refl) Heq).
      * apply IH. intros e' He'. apply Habsent. now right.
  - exact Hfind.
  - cbn. now rewrite Hfind.
Qed.

(** An exported segment keeps the calls made, and returns eval entries
    only for criteria it has called. *)
Lemma exported_segment_calls (segment : Segment.Segment World Any)
  (agent : Agent World) (previous : list Message) (s s' : Run World) (out : Promises) :
  Exported segment ->
  Segment.evaluate segment agent previous s = (Returned out, s') ->
  (forall c, In c (calls s) -> In c (calls s')) /\
  (forall c p, In (Segment.type_eval c p) out -> evaluated c (calls s')).
Proof.
  intros [m | | c | user max until] Hrun.
  - cbn in Hrun. inversion Hrun; subst. split; [auto|].
    intros c p [Hin | []]. discriminate.
  - cbn in Hrun. unfold bind, call in Hrun.
    destruct (invoke agent previous (world s)) as [[a | e] w]; cbn in Hrun; [|discriminate].
    inversion Hrun; subst. cbn. split.
    + intros c Hc. apply in_or_app. now left.
    + intros c p [Hin | []]. discriminate.
  - cbn in Hrun. destruct (length previous =? 0)%nat; [discriminate|].
    unfold bind, call in Hrun.
    destruct (Criterion.evaluate c previous (world s)) as [p w]. cbn in Hrun.
    inversion Hrun; subst. cbn. split.
    + intros c' Hc. apply in_or_app. now left.
    + intros c' p' [Hin | []]. inversion Hin; subst.
      exists previous. apply in_or_app. right. now left.
  - cbn [Segment.evaluate Segment.userSimulation] in Hrun. split.
    + destruct (loop_calls_extend user until (Segment.maxIterationsOf max) agent previous
                  (Z.to_nat (Segment.maxIterationsOf max)) 0%Z [] s) as [cs Hcs].
      rewrite Hrun in Hcs. cbn in Hcs. rewrite Hcs.
      intros c Hc. apply in_or_app. now left.
    + intros c p Hin.
      destruct (loop_eval_entries _ _ _ _ _ _ _ _ _ _ _ Hrun c p Hin) as [[] | Hcalled].
      exact Hcalled.
Qed.

Lemma evaluateSegments_calls (agent : Agent World)
  (segments : list (Segment.Segment World Any)) :
  Forall Exported segments ->
  forall pushed s out s',
    EvalRunner.evaluateSegments agent segments pushed s = (Returned out, s') ->
    (forall c p, In (Segment.type_eval c p) pushed -> evaluated c (calls s)) ->
    forall c p, In (Segment.type_eval c p) out -> evaluated c (calls s').
Proof.
  induction 1 as [|segment segments Hseg _ IH]; intros pushed s out s' Hrun Hpushed c p Hin.
  - cbn in Hrun. inversion Hrun; subst. eauto.
  - cbn [EvalRunner.evaluateSegments] in Hrun. unfold bind at 1 in Hrun.
    destruct (Segment.evaluate segment agent (Segment.messagesOf pushed) s)
      as [[segmentResult | e] s1] eqn:Hstep; [|discriminate].
    destruct (exported_segment_calls _ _ _ _ _ _ Hseg Hstep) as [Hkeep Hnew].
    apply (IH _ _ _ _ Hrun) with (p := p); [|exact Hin].
    intros c' p' Hin'. apply in_app_or in Hin'. destruct Hin' as [Hold | Hadded].
    + destruct (Hpushed _ _ Hold) as [ms Hms]. exists ms. now apply Hkeep.
    + now apply (Hnew c' p').
Qed.

(** C9. After a run of exported segments, a criterion that was not called
    during the run has no results: [getResults] gives the empty list,
    [getResult] gives undefined and [getResultOrThrow] throws an error
    that names the criterion.  Criteria are told apart by their identity
    alone. *)
Theorem lookups_of_unevaluated_criterion
  (agent : EvalRunner.AgentOrFactory World)
  (segments : list (Segment.Segment World Any)) (s s' : Run World)
  (rep : EvalRunner.Report World Any) (c : Criterion.Criterion World Any)
  (Hexported : Forall Exported segments)
  (Hrun : EvalRunner.evaluate agent segments s = (Returned rep, s'))
  (Hnever : forall ms, ~ In (CallEvaluate (Criterion.ref c) ms) (calls s')) :
  EvalRunner.getResults rep c = [] /\
  EvalRunner.getResult rep c = None /\
  EvalRunner.getResultOrThrow rep c
  = Thrown (mkError ("Cannot find results for criterion " ++ Criterion.name c)).
Proof.
  destruct (evaluate_returns _ _ _ _ _ Hrun)
    as (_agent & s0 & pushed & results & Hsegs & _ & Hall & ->).
  apply lookups_absent.
  intros e Hin Href.
  pose proof (resolved_entries _ _ Hall e Hin) as Hpushed.
  destruct (evaluateSegments_calls _agent segments Hexported [] s0 pushed s' Hsegs
              (fun c p (H : In _ []) => match H with end) _ _ Hpushed) as [ms Hms].
  apply (Hnever ms). rewrite <- Href. exact Hms.
Qed.

Lemma StatusKey_eqb_eq (a b : EvalRunner.StatusKey) :
  EvalRunner.StatusKey_eqb a b = true <-> a = b.
Proof.
  destruct a, b; cbn; split; congruence.
Qed.

Lemma in_groupBy {T : Type} (array : list T) (key : T -> EvalRunner.StatusKey)
  (k : EvalRunner.StatusKey) (x : T) :
  In x (groupBy EvalRunner.StatusKey_eqb array key k) <-> In x array /\ key x = k.
Proof.
  unfold groupBy. rewrite filter_In. now rewrite StatusKey_eqb_eq.
Qed.

Lemma in_withStatus (results : list Entry) (e : EvalRunner.EvalEntry World Any) :
  In e (EvalRunner.withStatus results) <->
  In (EvalRunner.type_eval e) results /\ status (EvalRunner.evalResult e) <> None.
Proof.
  unfold EvalRunner.withStatus. rewrite in_flat_map. split.
  - intros ([m | e'] & Hin & He); [destruct He|].
    destruct (status (EvalRunner.evalResult e')) eqn:Hs; [|destruct He].
    destruct He as [-> | []]. split; [exact Hin | congruence].
  - intros [Hin Hs]. exists (EvalRunner.type_eval e). split; [exact Hin|].
    destruct (status (EvalRunner.evalResult e)); [now left | congruence].
Qed.

(** C3, as amended.  [resultsByStatus] holds the eval entries whose status
    is set: those of status success in the success bucket, those of
    status failure in the failure bucket.  An eval entry whose status is
    undetermined is in no bucket, and the unknown bucket is empty. *)
Theorem resultsByStatus_holds_determined_entries
  (agent : EvalRunner.AgentOrFactory World)
  (segments : list (Segment.Segment World Any)) (s s' : Run World)
  (rep : EvalRunner.Report World Any)
  (Hrun : EvalRunner.evaluate agent segments s = (Returned rep, s')) :
  (forall e, In e (EvalRunner.resultsByStatus rep EvalRunner.key_success) <->
             In (EvalRunner.type_eval e) (EvalRunner.results rep) /\
             status (EvalRunner.evalResult e) = Some success) /\
  (forall e, In e (EvalRunner.resultsByStatus rep EvalRunner.key_failure) <->
             In (EvalRunner.type_eval e) (EvalRunner.results rep) /\
             status (EvalRunner.evalResult e) = Some failure) /\
  EvalRunner.resultsByStatus rep EvalRunner.key_unknown = [] /\
  (forall e, status (EvalRunner.evalResult e) = None ->
             forall k, ~ In e (EvalRunner.resultsByStatus rep k)).
Proof.
  destruct (evaluate_returns _ _ _ _ _ Hrun)
    as (_agent & s0 & pushed & results & _ & _ & _ & ->).
  cbn [EvalRunner.report EvalRunner.resultsByStatus EvalRunner.results].
  assert (Hbucket : forall e k,
             In e (groupBy EvalRunner.StatusKey_eqb (EvalRunner.withStatus results)
                     (fun r => EvalRunner.statusOrUnknown (status (EvalRunner.evalResult r))) k)
             <-> In (EvalRunner.type_eval e) results /\
                 exists st, status (EvalRunner.evalResult e) = Some st /\
                            EvalRunner.statusOrUnknown (Some st) = k).
  { intros e k. rewrite in_groupBy, in_withStatus. split.
    - intros [[Hin Hs] Hk]. split; [exact Hin|].
      destruct (status (EvalRunner.evalResult e)) as [st|]; [|congruence].
      now exists st.
    - intros [Hin (st & Hs & Hk)]. rewrite Hs. repeat split; congruence. }
  split; [|split; [|split]].
  - intros e. rewrite Hbucket. split.
    + intros [Hin (st & Hs & Hk)]. split; [exact Hin|]. destruct st; [exact Hs | discriminate].
    + intros [Hin Hs]. split; [exact Hin|]. now exists success.
  - intros e. rewrite Hbucket. split.
    + intros [Hin (st & Hs & Hk)]. split; [exact Hin|]. destruct st; [discriminate | exact Hs].
    + intros [Hin Hs]. split; [exact Hin|]. now exists failure.
  - match goal with |- ?l = [] => destruct l as [|e l'] eqn:Hl; [reflexivity|] end.
    assert (Hin : In e (e :: l')) by now left.
    rewrite <- Hl in Hin. apply Hbucket in Hin.
    destruct Hin as [_ (st & _ & Hk)]. destruct st; discriminate.
  - intros e Hs k Hin. apply Hbucket in Hin.
    destruct Hin as [_ (st & Hs' & _)]. congruence.
Qed.

Lemma evaluateSegments_messages (agent : Agent World) (msgs : list Message) :
  forall pushed s,
    EvalRunner.evaluateSegments (Any := Any) agent (map Segment.message msgs) pushed s
    = (Returned (pushed ++ map Segment.type_message msgs), s).
Proof.
  induction msgs as [|m msgs IH]; intros pushed s; cbn.
  - now rewrite app_nil_r.
  - unfold bind, ret. rewrite IH. now rewrite <- app_assoc.
Qed.

Lemma all_messages (msgs : list Message) :
  all (map EvalRunner.resolveEntry
         (map (Segment.type_message (World := World) (Any := Any)) msgs))
  = Resolved (map EvalRunner.type_message msgs).
Proof.
  induction msgs as [|m msgs IH]; [reflexivity|].
  cbn. cbn in IH. now rewrite IH.
Qed.

Lemma withStatus_messages (msgs : list Message) :
  EvalRunner.withStatus (World := World) (Any := Any) (map EvalRunner.type_message msgs) = [].
Proof.
  induction msgs as [|m msgs IH]; [reflexivity | exact IH].
Qed.

(** C4. A scenario of [message] segments returns a report whose messages
    are the messages given, in their order, whose success and failure
    buckets are empty and whose [success] is true.  In every report
    [success] is true exactly when the failure bucket is empty, and it is
    true when the results hold no eval entry. *)
Theorem message_only_scenario_and_success
  (agent : Agent World) (msgs : list Message) (s : Run World) :
  (exists rep,
     EvalRunner.evaluate (Any := Any) (EvalRunner.the_agent agent)
                         (map Segment.message msgs) s
     = (Returned rep, s) /\
     EvalRunner.messages rep = msgs /\
     EvalRunner.resultsByStatus rep EvalRunner.key_success = [] /\
     EvalRunner.resultsByStatus rep EvalRunner.key_failure = [] /\
     EvalRunner.success rep = true) /\
  (forall agent' segments s0 s' (rep : EvalRunner.Report World Any),
     EvalRunner.evaluate agent' segments s0 = (Returned rep, s') ->
     (EvalRunner.success rep = true <->
      EvalRunner.resultsByStatus rep EvalRunner.key_failure = []) /\
     ((forall e, ~ In (EvalRunner.type_eval e) (EvalRunner.results rep)) ->
      EvalRunner.success rep = true)).
Proof.
  split.
  - eexists. split.
    + unfold EvalRunner.evaluate. unfold bind at 1. cbn [ret].
      unfold bind at 1. rewrite evaluateSegments_messages. cbn [app].
      unfold bind at 1. rewrite all_messages. cbn [await ret]. reflexivity.
    + cbn [EvalRunner.report EvalRunner.messages EvalRunner.resultsByStatus EvalRunner.success].
      rewrite withStatus_messages. cbn. repeat split. apply messagesOf_messages.
  - intros agent' segments s0 s' rep Hrun.
    destruct (evaluate_returns _ _ _ _ _ Hrun)
      as (_agent & s1 & pushed & results & _ & _ & _ & ->).
    cbn [EvalRunner.report EvalRunner.resultsByStatus EvalRunner.success EvalRunner.results].
    split.
    + rewrite Nat.eqb_eq. apply length_zero_iff_nil.
    + intros Hnone. apply Nat.eqb_eq, length_zero_iff_nil.
      match goal with |- ?l = [] => destruct l as [|e l'] eqn:Hl; [reflexivity|] end.
      assert (Hin : In e (e :: l')) by now left.
      rewrite <- Hl in Hin. apply in_groupBy in Hin. destruct Hin as [Hin _].
      apply in_withStatus in Hin. destruct Hin as [Hin _]. now destruct (Hnone e).
Qed.

(** C10. With a [max] of zero or less, [userSimulation] returns no entry
    and leaves the run as it was: nobody is called.  A scenario made of
    that segment alone gives a report with no results, none for [until]
    in particular. *)
Theorem userSimulation_without_iterations
  (user : Segment.SyntheticUser World) (max : Z)
  (until : Criterion.Criterion World Any) (agent : Agent World)
  (previousActualMessages : list Message) (s : Run World)
  (Hmax : (max <= 0)%Z) :
  Segment.evaluate (Segment.userSimulation user (Some max) until) agent
                   previousActualMessages s
  = (Returned [], s) /\
  exists rep,
    EvalRunner.evaluate (EvalRunner.the_agent agent)
                        [Segment.userSimulation user (Some max) until] s
    = (Returned rep, s) /\
    EvalRunner.results rep = [] /\
    EvalRunner.messages rep = [] /\
    EvalRunner.getResults rep until = [] /\
    EvalRunner.getResult rep until = None.
Proof.
  assert (Hseg : forall previous,
             Segment.evaluate (Segment.userSimulation user (Some max) until) agent previous s
             = (Returned [], s)).
  { intros previous. cbn [Segment.evaluate Segment.userSimulation].
    apply loop_not_entered. cbn. exact Hmax. }
  split; [apply Hseg|].
  eexists. split.
  - unfold EvalRunner.evaluate. unfold bind at 1. cbn [ret].
    unfold bind at 1. cbn [EvalRunner.evaluateSegments]. unfold bind at 1.
    rewrite Hseg. cbn [app ret]. unfold bind at 1. cbn. reflexivity.
  - cbn. repeat split.
Qed.

End RunnerFacts.

(** ** The properties on the stub collaborators *)

Lemma stub_user_resolves :
  forall ms w, exists u w', Segment.respond Stub.user ms w = (Resolved u, w').
Proof.
  intros ms w. do 2 eexists. reflexivity.
Defined.

Lemma stub_agent_resolves :
  forall ms w, exists a w', invoke Stub.agent ms w = (Resolved a, w').
Proof.
  intros ms w. do 2 eexists. reflexivity.
Defined.

Lemma stub_neverMet_unmet :
  forall ms w, exists r w',
    Criterion.evaluate Stub.neverMet ms w = (Resolved r, w') /\ status r <> Some success.
Proof.
  intros ms w. do 2 eexists. split; [reflexivity | discriminate].
Defined.

(** C1, as stated, at [max = 0]: the collaborators never reject and
    [until] is never met, yet the segment returns no entry at all, so no
    eval entry either. *)
Lemma userSimulation_zero_max_no_eval_entry :
  (forall ms w, exists u w', Segment.respond Stub.user ms w = (Resolved u, w')) /\
  (forall ms w, exists a w', invoke Stub.agent ms w = (Resolved a, w')) /\
  (forall ms w, exists r w',
     Criterion.evaluate Stub.neverMet ms w = (Resolved r, w') /\ status r <> Some success) /\
  Segment.evaluate (Segment.userSimulation Stub.user (Some 0%Z) Stub.neverMet)
                   Stub.agent [] Stub.start
  = (Returned [], Stub.start) /\
  ~ exists msgs last s',
      Segment.evaluate (Segment.userSimulation Stub.user (Some 0%Z) Stub.neverMet)
                       Stub.agent [] Stub.start
      = (Returned (map Segment.type_message msgs
                     ++ [Segment.type_eval Stub.neverMet (Resolved last)]), s') /\
      Z.of_nat (length msgs) = (2 * 0)%Z.
Proof.
  split; [exact stub_user_resolves|].
  split; [exact stub_agent_resolves|].
  split; [exact stub_neverMet_unmet|].
  split; [reflexivity|].
  intros (msgs & last & s' & Hrun & _).
  cbn in Hrun. inversion Hrun as [[Hout Hs]].
  destruct (map Segment.type_message msgs); discriminate.
Qed.

Lemma userSimulation_exhausts_witness :
  (1 <= Segment.maxIterationsOf (Some 2%Z))%Z /\
  exists msgs last s' w0 cs0,
    Segment.evaluate (Segment.userSimulation Stub.user (Some 2%Z) Stub.neverMet)
                     Stub.agent [Stub.hi] Stub.start
    = (Returned (map Segment.type_message msgs
                   ++ [Segment.type_eval Stub.neverMet (Resolved last)]), s') /\
    Z.of_nat (length msgs) = (2 * Segment.maxIterationsOf (Some 2%Z))%Z /\
    alternating msgs /\
    status last <> Some success /\
    Criterion.evaluate Stub.neverMet ([Stub.hi] ++ msgs) w0 = (Resolved last, world s') /\
    calls s' = calls Stub.start ++ cs0
                 ++ [CallEvaluate (Criterion.ref Stub.neverMet) ([Stub.hi] ++ msgs)].
Proof.
  assert (Hmax : (1 <= Segment.maxIterationsOf (Some 2%Z))%Z) by (cbn; lia).
  split; [exact Hmax|].
  exact (userSimulation_exhausts Stub.user (Some 2%Z) Stub.neverMet Stub.agent [Stub.hi]
           Stub.start stub_user_resolves stub_agent_resolves stub_neverMet_unmet Hmax).
Defined.

Lemma stub_two_turns :
  Turns Stub.user (Stub.atLeast 4) Stub.agent [] 0
        [Stub.hi; Stub.hello; Stub.hi; Stub.hello]
        ([Stub.result (Some failure)] ++ [Stub.result (Some success)])
        Stub.twoTurns 6.
Proof.
  refine (turns_next Stub.user (Stub.atLeast 4) Stub.agent [] 0 (mkUserMessage "hi") 1
            {| message_of := mkAIMessage "hello" None None |} 2
            (Stub.result (Some failure)) 3 [Stub.hi; Stub.hello]
            [Stub.result (Some success)] _ 6 eq_refl eq_refl eq_refl _).
  refine (turns_next Stub.user (Stub.atLeast 4) Stub.agent
            [Stub.hi; Stub.hello] 3 (mkUserMessage "hi") 4
            {| message_of := mkAIMessage "hello" None None |} 5
            (Stub.result (Some success)) 6 [] [] [] 6 eq_refl eq_refl eq_refl _).
  apply turns_done.
Defined.

Lemma userSimulation_stops_when_met_witness :
  Forall (fun x : CriterionResult unit => status x <> Some success)
         [Stub.result (Some failure)] /\
  (Z.of_nat (length [Stub.result (Some failure)] + 1) <= Segment.maxIterationsOf None)%Z /\
  Segment.evaluate (Segment.userSimulation Stub.user None (Stub.atLeast 4)) Stub.agent []
                   {| world := 0; calls := [] |}
  = (Returned (map Segment.type_message [Stub.hi; Stub.hello; Stub.hi; Stub.hello]
                 ++ [Segment.type_eval (Stub.atLeast 4)
                                       (Resolved (Stub.result (Some success)))]),
     {| world := 6; calls := [] ++ Stub.twoTurns |}) /\
  length [Stub.hi; Stub.hello; Stub.hi; Stub.hello] = 2 * 2 /\
  alternating [Stub.hi; Stub.hello; Stub.hi; Stub.hello] /\
  respondCalls Stub.twoTurns = 2 /\
  invokeCalls Stub.twoTurns = 2.
Proof.
  assert (Hbefore : Forall (fun x : CriterionResult unit => status x <> Some success)
                           [Stub.result (Some failure)])
    by (constructor; [discriminate | constructor]).
  assert (Hk : (Z.of_nat (length [Stub.result (Some failure)] + 1)
                <= Segment.maxIterationsOf None)%Z) by (cbn; lia).
  split; [exact Hbefore|]. split; [exact Hk|].
  exact (userSimulation_stops_when_met Stub.user None (Stub.atLeast 4) Stub.agent [] 0 []
           _ _ _ _ _ stub_two_turns Hbefore eq_refl Hk).
Defined.

(** C3, as stated, on [message, aiEval(undetermined)]: the eval entry of
    [undetermined] is among the results with no status, the unknown
    bucket is empty and the entry is in no bucket. *)
Lemma undetermined_entry_in_no_bucket :
  exists rep s' e,
    EvalRunner.evaluate (EvalRunner.the_agent Stub.agent)
                        [Segment.message Stub.hi; Segment.aiEval Stub.undetermined]
                        Stub.start
    = (Returned rep, s') /\
    In (EvalRunner.type_eval e) (EvalRunner.results rep) /\
    status (EvalRunner.evalResult e) = None /\
    EvalRunner.resultsByStatus rep
      (EvalRunner.statusOrUnknown (status (EvalRunner.evalResult e))) = [] /\
    forall k, ~ In e (EvalRunner.resultsByStatus rep k).
Proof.
  do 2 eexists.
  exists {| EvalRunner.evalResult := Stub.result None;
            EvalRunner.criterion := Stub.undetermined |}.
  split; [vm_compute; reflexivity|].
  split; [cbn; right; left; reflexivity|].
  split; [reflexivity|].
  split; [reflexivity|].
  intros k Hin. destruct k; exact Hin.
Qed.

Lemma resultsByStatus_holds_determined_entries_witness :
  exists rep s',
    EvalRunner.evaluate (EvalRunner.the_agent Stub.agent)
      [Segment.message Stub.hi; Segment.aiEval Stub.undetermined;
       Segment.aiEval Stub.neverMet; Segment.aiEval (Stub.atLeast 1)]
      Stub.start
    = (Returned rep, s') /\
    (forall e, In e (EvalRunner.resultsByStatus rep EvalRunner.key_success) <->
               In (EvalRunner.type_eval e) (EvalRunner.results rep) /\
               status (EvalRunner.evalResult e) = Some success) /\
    (forall e, In e (EvalRunner.resultsByStatus rep EvalRunner.key_failure) <->
               In (EvalRunner.type_eval e) (EvalRunner.results rep) /\
               status (EvalRunner.evalResult e) = Some failure) /\
    EvalRunner.resultsByStatus rep EvalRunner.key_unknown = [] /\
    (forall e, status (EvalRunner.evalResult e) = None ->
               forall k, ~ In e (EvalRunner.resultsByStatus rep k)).
Proof.
  do 2 eexists.
  match goal with
  | |- ?run /\ _ => assert (Hrun : run) by (vm_compute; reflexivity)
  end.
  split; [exact Hrun|].
  exact (resultsByStatus_holds_determined_entries _ _ _ _ _ Hrun).
Defined.

Lemma message_only_scenario_and_success_witness :
  exists rep s',
    EvalRunner.evaluate (EvalRunner.the_agent Stub.agent)
      [Segment.message Stub.hi; Segment.agentResponse; Segment.aiEval (Stub.atLeast 1)]
      Stub.start
    = (Returned rep, s') /\
    (EvalRunner.success rep = true <->
     EvalRunner.resultsByStatus rep EvalRunner.key_failure = []) /\
    ((forall e, ~ In (EvalRunner.type_eval e) (EvalRunner.results rep)) ->
     EvalRunner.success rep = true).
Proof.
  do 2 eexists.
  match goal with
  | |- ?run /\ _ => assert (Hrun : run) by (vm_compute; reflexivity)
  end.
  split; [exact Hrun|].
  exact (proj2 (message_only_scenario_and_success Stub.agent [Stub.hi] Stub.start)
           _ _ _ _ _ Hrun).
Defined.

Lemma negate_flips_status_witness :
  Criterion.evaluate Stub.neverMet [Stub.hi] 0
  = (Resolved {| output := tt; reason := Some "not yet"; error := None;
                 status := Some failure |}, 1) /\
  (exists negated,
     Criterion.evaluate (Criterion.negate 7 Stub.neverMet) [Stub.hi] 0
     = (Resolved negated, 1) /\
     output negated = tt /\
     status negated = Some success) /\
  (exists twice,
     Criterion.evaluate (Criterion.negate 8 (Criterion.negate 7 Stub.neverMet)) [Stub.hi] 0
     = (Resolved twice, 1) /\
     output twice = tt /\
     status twice = Some failure).
Proof.
  split; [reflexivity|].
  exact (proj2 (negate_flips_status 7 8 Stub.neverMet [Stub.hi] 0 1 _ eq_refl)).
Defined.

Lemma and_combines_results_witness :
  Criterion.evaluate Stub.neverMet [Stub.hi] 0
  = (Resolved {| output := tt; reason := Some "not yet"; error := None;
                 status := Some failure |}, 1) /\
  Criterion.evaluate (Stub.atLeast 1) [Stub.hi] 1
  = (Resolved (Stub.result (Some success)), 2) /\
  Criterion.name (Criterion.and 9 Stub.neverMet (Stub.atLeast 1))
  = "never met AND long enough" /\
  exists both,
    Criterion.evaluate (Criterion.and 9 Stub.neverMet (Stub.atLeast 1)) [Stub.hi] 0
    = (Resolved both, 2) /\
    status both = Some failure /\
    output both = (tt, tt) /\
    reason both = Some "not yet".
Proof.
  split; [reflexivity|]. split; [reflexivity|].
  destruct (and_combines_results 9 Stub.neverMet (Stub.atLeast 1) [Stub.hi] 0 1 2 _ _
              eq_refl eq_refl)
    as (Hname & both & Hrun & _ & Hfailure & Houtput & _ & Hreason & _).
  split; [exact Hname|].
  exists both. split; [exact Hrun|].
  split; [apply Hfailure; intros [H _]; discriminate H|].
  split; [exact Houtput|].
  apply Hreason; [reflexivity | discriminate | left; reflexivity].
Defined.

Lemma synthetic_user_sees_swapped_roles_witness :
  (1 < 2)%Z /\
  exists rest,
    calls (snd (Segment.simulationLoop Stub.user Stub.neverMet 2 Stub.agent
                  [System (mkSystemMessage "be brief"); Stub.hi] 1 1%Z
                  [Segment.type_message Stub.hello] Stub.start))
    = calls Stub.start
        ++ CallRespond [OfAI (mkAIMessage "hi" None None); OfUser (mkUserMessage "hello")]
        :: rest.
Proof.
  assert (Hi : (1 < 2)%Z) by lia.
  split; [exact Hi|].
  destruct (synthetic_user_sees_swapped_roles Stub.user Stub.neverMet 2 Stub.agent
              [System (mkSystemMessage "be brief"); Stub.hi] 0 1%Z
              [Segment.type_message Stub.hello] Stub.start Hi)
    as (view & rest & Hview & _ & Hcalls & _).
  exists rest. rewrite Hcalls.
  now rewrite (swapped_flipRoles _ _ Hview).
Defined.

Lemma lookups_of_unevaluated_criterion_witness :
  exists rep s',
    Forall Exported [Segment.message Stub.hi; Segment.agentResponse;
                     Segment.aiEval Stub.neverMet] /\
    EvalRunner.evaluate (EvalRunner.the_agent Stub.agent)
      [Segment.message Stub.hi; Segment.agentResponse; Segment.aiEval Stub.neverMet]
      Stub.start
    = (Returned rep, s') /\
    (forall ms, ~ In (CallEvaluate (Criterion.ref Stub.neverMetCopy) ms) (calls s')) /\
    EvalRunner.getResults rep Stub.neverMet
    = [{| output := tt; reason := Some "not yet"; error := None; status := Some failure |}] /\
    EvalRunner.getResults rep Stub.neverMetCopy = [] /\
    EvalRunner.getResult rep Stub.neverMetCopy = None /\
    EvalRunner.getResultOrThrow rep Stub.neverMetCopy
    = Thrown (mkError "Cannot find results for criterion never met").
Proof.
  do 2 eexists.
  assert (Hexported : Forall (Exported (World := Stub.World) (Any := unit))
                        [Segment.message Stub.hi; Segment.agentResponse;
                         Segment.aiEval Stub.neverMet])
    by (repeat constructor).
  split; [exact Hexported|].
  match goal with
  | |- ?run /\ _ => assert (Hrun : run) by (vm_compute; reflexivity)
  end.
  split; [exact Hrun|].
  match goal with
  | |- ?never /\ _ =>
      assert (Hnever : never)
        by (intros ms [H | [H | []]]; discriminate H)
  end.
  split; [exact Hnever|].
  split; [reflexivity|].
  exact (lookups_of_unevaluated_criterion _ _ _ _ _ Stub.neverMetCopy Hexported Hrun Hnever).
Defined.

Lemma userSimulation_without_iterations_witness :
  (0 <= 0)%Z /\
  Segment.evaluate (Segment.userSimulation Stub.user (Some 0%Z) Stub.neverMet) Stub.agent
                   [Stub.hi] Stub.start
  = (Returned [], Stub.start) /\
  exists rep,
    EvalRunner.evaluate (EvalRunner.the_agent Stub.agent)
                        [Segment.userSimulation Stub.user (Some 0%Z) Stub.neverMet]
                        Stub.start
    = (Returned rep, Stub.start) /\
    EvalRunner.results rep = [] /\
    EvalRunner.messages rep = [] /\
    EvalRunner.getResults rep Stub.neverMet = [] /\
    EvalRunner.getResult rep Stub.neverMet = None.
Proof.
  assert (Hmax : (0 <= 0)%Z) by lia.
  split; [exact Hmax|].
  exact (userSimulation_without_iterations Stub.user 0%Z Stub.neverMet Stub.agent
           [Stub.hi] Stub.start Hmax).
Defined.

(** * Further properties *)

(** ** Laws of the combinators *)

Section CombinatorLaws.
Context {World : Type}.

Lemma string_app_assoc (a b c : string) : ((a ++ b) ++ c)%string = (a ++ (b ++ c))%string.
Proof.
  induction a as [|ch a IH]; cbn; [reflexivity | now rewrite IH].
Qed.

(** Joining the reasons that are not empty is associative. *)
Lemma join_reasons_assoc (ra rb rc : option string) :
  join " AND " (filterBoolean [Some (join " AND " (filterBoolean [ra; rb])); rc])
  = join " AND " (filterBoolean [ra; Some (join " AND " (filterBoolean [rb; rc]))]).
Proof.
  destruct ra as [[|ca sa]|], rb as [[|cb sb]|], rc as [[|cc sc]|]; cbn;
    rewrite ?string_app_assoc; reflexivity.
Qed.

(** X1. Negating twice gives back the criterion: the same promise, resolved
    with the same result or rejected with the same error, and the same
    world. *)
Theorem negate_twice_evaluates_alike {T : Type} (fresh fresh' : nat)
  (c : Criterion.Criterion World T) (messages : list Message) (w : World) :
  Criterion.evaluate (Criterion.negate fresh' (Criterion.negate fresh c)) messages w
  = Criterion.evaluate c messages w.
Proof.
  cbn. destruct (Criterion.evaluate c messages w) as [[result | e] w']; cbn; [|reflexivity].
  destruct result as [o r er [[|]|]]; reflexivity.
Qed.

(** X2. Piping twice is piping through the composed function, and piping
    commutes with negation. *)
Theorem pipe_composes {T U V : Type} (n1 n2 n3 n4 n5 n6 : nat)
  (c : Criterion.Criterion World T) (f : T -> U) (g : U -> V)
  (messages : list Message) (w : World) :
  Criterion.evaluate (Criterion.pipe n2 (Criterion.pipe n1 c f) g) messages w
  = Criterion.evaluate (Criterion.pipe n3 c (fun x => g (f x))) messages w /\
  Criterion.evaluate (Criterion.negate n4 (Criterion.pipe n1 c f)) messages w
  = Criterion.evaluate (Criterion.pipe n6 (Criterion.negate n5 c) f) messages w /\
  Criterion.name (Criterion.pipe n2 (Criterion.pipe n1 c f) g) = Criterion.name c.
Proof.
  repeat split; cbn;
    destruct (Criterion.evaluate c messages w) as [[result | e] w']; reflexivity.
Qed.

(** X3. [and] does not short-circuit: [c2] is evaluated in the world [c1]
    leaves, whatever [c1] gives, and the world after [and] is the one
    after both.  [and] resolves only when both resolve; when one alone
    rejects, [and] rejects with its error, and when both reject, with the
    error of one of them. *)
Theorem and_evaluates_both {T U : Type} (fresh : nat)
  (c1 : Criterion.Criterion World T) (c2 : Criterion.Criterion World U)
  (messages : list Message) (w : World) :
  let first := Criterion.evaluate c1 messages w in
  let second := Criterion.evaluate c2 messages (snd first) in
  let both := Criterion.evaluate (Criterion.and fresh c1 c2) messages w in
  snd both = snd second /\
  (forall e r2, fst first = Rejected e -> fst second = Resolved r2 ->
                fst both = Rejected e) /\
  (forall r1 e, fst first = Resolved r1 -> fst second = Rejected e ->
                fst both = Rejected e) /\
  (forall e1 e2, fst first = Rejected e1 -> fst second = Rejected e2 ->
                 fst both = Rejected e1 \/ fst both = Rejected e2) /\
  (forall r, fst both = Resolved r ->
             exists r1 r2, fst first = Resolved r1 /\ fst second = Resolved r2).
Proof.
  cbn.
  destruct (Criterion.evaluate c1 messages w) as [[r1 | e1] w1]; cbn;
    destruct (Criterion.evaluate c2 messages w1) as [[r2 | e2] w2]; cbn;
    repeat split; intros; try congruence; eauto; left; congruence.
Qed.

(** X4. A result of [and] is never undetermined, carries no error and always
    has a reason; negating [and] gives success exactly when one side is
    not a success. *)
Theorem and_is_two_valued {T U : Type} (fresh fresh' : nat)
  (c1 : Criterion.Criterion World T) (c2 : Criterion.Criterion World U)
  (messages : list Message) (w w' : World) (both : CriterionResult (T * U))
  (Hboth : Criterion.evaluate (Criterion.and fresh c1 c2) messages w = (Resolved both, w')) :
  status both <> None /\
  error both = None /\
  reason both <> None /\
  exists r1 r2 w1 negated,
    Criterion.evaluate c1 messages w = (Resolved r1, w1) /\
    Criterion.evaluate c2 messages w1 = (Resolved r2, w') /\
    Criterion.evaluate (Criterion.negate fresh' (Criterion.and fresh c1 c2)) messages w
    = (Resolved negated, w') /\
    (status negated = Some success <->
     status r1 <> Some success \/ status r2 <> Some success) /\
    (status negated = Some failure <->
     status r1 = Some success /\ status r2 = Some success).
Proof.
  cbn in Hboth |- *.
  destruct (Criterion.evaluate c1 messages w) as [[r1 | e1] w1] eqn:E1; cbn in Hboth |- *;
    destruct (Criterion.evaluate c2 messages w1) as [[r2 | e2] w2] eqn:E2; cbn in Hboth |- *;
    try discriminate.
  inversion Hboth; subst. cbn.
  split; [destruct (is_success (status r1) && is_success (status r2)); discriminate|].
  split; [reflexivity|]. split; [discriminate|].
  exists r1, r2, w1. eexists. split; [reflexivity|]. split; [exact E2|].
  split; [reflexivity|]. cbn.
  destruct (status r1) as [[|]|], (status r2) as [[|]|]; cbn;
    (split; split; intros H;
     solve [ congruence
           | destruct H; congruence
           | split; congruence
           | left; congruence
           | right; congruence ]).
Qed.

(** X5. [and] is associative but for the nesting of the outputs: both
    groupings have the same name, evaluate the three criteria in the same
    order, and reject together or resolve together, then with the same
    status, the same reason and the same three outputs. *)
Theorem and_is_associative {A B C : Type} (n1 n2 n3 n4 : nat)
  (a : Criterion.Criterion World A) (b : Criterion.Criterion World B)
  (c : Criterion.Criterion World C) (messages : list Message) (w : World) :
  let left := Criterion.evaluate (Criterion.and n2 (Criterion.and n1 a b) c) messages w in
  let right := Criterion.evaluate (Criterion.and n4 a (Criterion.and n3 b c)) messages w in
  Criterion.name (Criterion.and n2 (Criterion.and n1 a b) c)
  = Criterion.name (Criterion.and n4 a (Criterion.and n3 b c)) /\
  snd left = snd right /\
  match fst left, fst right with
  | Resolved l, Resolved r =>
      status l = status r /\ reason l = reason r /\ error l = error r /\
      fst (fst (output l)) = fst (output r) /\
      snd (fst (output l)) = fst (snd (output r)) /\
      snd (output l) = snd (snd (output r))
  | Rejected _, Rejected _ => True
  | _, _ => False
  end.
Proof.
  cbn -[join filterBoolean]. split; [now rewrite string_app_assoc|].
  destruct (Criterion.evaluate a messages w) as [[ra | ea] wa]; cbn -[join filterBoolean];
    destruct (Criterion.evaluate b messages wa) as [[rb | eb] wb]; cbn -[join filterBoolean];
    destruct (Criterion.evaluate c messages wb) as [[rc | ec] wc]; cbn -[join filterBoolean];
    try (split; reflexivity).
  split; [reflexivity|]. split.
  - destruct (status ra) as [[|]|], (status rb) as [[|]|], (status rc) as [[|]|]; reflexivity.
  - split; [|repeat split]. f_equal. apply join_reasons_assoc.
Qed.

End CombinatorLaws.

(** ** More on [userSimulation] *)

Section SimulationRuns.
Context {World Any : Type}.
Variable user : Segment.SyntheticUser World.
Variable until : Criterion.Criterion World Any.
Variable agent : Agent World.

Local Abbreviation Promises := (list (Segment.SegmentEvaluationPromise World Any)).

(** A run of the loop that returns has taken turns and stopped at the
    first one where [until] was met or the counter was at its last
    value. *)
Lemma loop_returns_turns (maxIterations : Z) (previous : list Message) (fuel : nat) :
  forall i pushed s out s',
    Segment.simulationLoop user until maxIterations agent previous fuel i pushed s
    = (Returned out, s') ->
    fuel = Z.to_nat (maxIterations - i) ->
    (i < maxIterations)%Z ->
    exists msgs before met cs,
      Turns user until agent (previous ++ Segment.messagesOf pushed) (world s)
            msgs (before ++ [met]) cs (world s') /\
      Forall (fun x => status x <> Some success) before /\
      out = pushed ++ map Segment.type_message msgs
                   ++ [Segment.type_eval until (Resolved met)] /\
      calls s' = calls s ++ cs /\
      (i + Z.of_nat (length before) + 1 <= maxIterations)%Z /\
      (status met = Some success \/
       (i + Z.of_nat (length before) + 1 = maxIterations)%Z).
Proof.
  induction fuel as [|fuel IH]; intros i pushed s out s' Hrun Hfuel Hi; [lia|].
  cbn [Segment.simulationLoop] in Hrun.
  replace (i <? maxIterations)%Z with true in Hrun by (symmetry; now apply Z.ltb_lt).
  unfold bind, call in Hrun.
  destruct (Segment.respond user _ (world s)) as [[u | e] w1] eqn:Hu; cbn in Hrun;
    [|discriminate].
  destruct (invoke agent _ w1) as [[a | e] w2] eqn:Ha; cbn in Hrun; [|discriminate].
  destruct (Criterion.evaluate until _ w2) as [[r | e] w3] eqn:Hr; cbn in Hrun;
    [|discriminate].
  fold (userTurn u) in *. fold (agentTurn a) in *.
  assert (Hone : Turns user until agent (previous ++ Segment.messagesOf pushed) (world s)
                       [userTurn u; agentTurn a] ([] ++ [r])
                       [CallRespond (Segment.flipRoles (previous ++ Segment.messagesOf pushed));
                        CallInvoke ((previous ++ Segment.messagesOf pushed) ++ [userTurn u]);
                        CallEvaluate (Criterion.ref until)
                          (((previous ++ Segment.messagesOf pushed) ++ [userTurn u])
                             ++ [agentTurn a])] w3).
  { eapply turns_next; [exact Hu | exact Ha | exact Hr | apply turns_done]. }
  destruct (is_success (status r)) eqn:Hs.
  { inversion Hrun; subst. do 4 eexists. split; [exact Hone|].
    split; [constructor|]. split; [cbn; rewrite <- !app_assoc; reflexivity|].
    split; [cbn; rewrite <- !app_assoc; reflexivity|].
    cbn. split; [lia|]. left. destruct (status r) as [[|]|]; cbn in Hs; congruence. }
  destruct (i =? maxIterations - 1)%Z eqn:Hlast.
  { inversion Hrun; subst. do 4 eexists. split; [exact Hone|].
    split; [constructor|]. split; [cbn; rewrite <- !app_assoc; reflexivity|].
    split; [cbn; rewrite <- !app_assoc; reflexivity|].
    cbn. apply Z.eqb_eq in Hlast. split; [lia|]. right. lia. }
  apply Z.eqb_neq in Hlast.
  apply IH in Hrun; [|lia|lia].
  destruct Hrun as (msgs & before & met & cs & HT & Hbefore & Hout & Hcalls & Hle & Hstop).
  rewrite !messagesOf_app in HT. cbn in HT. rewrite !app_assoc in HT.
  cbn [world calls] in HT, Hcalls.
  exists (userTurn u :: agentTurn a :: msgs), (r :: before), met.
  eexists. split; [eapply turns_next; [exact Hu | exact Ha | exact Hr | exact HT]|].
  split; [constructor; [now apply is_success_false | exact Hbefore]|].
  split; [rewrite Hout; cbn; rewrite <- !app_assoc; reflexivity|].
  split; [rewrite Hcalls; rewrite <- !app_assoc; reflexivity|].
  cbn [length]. split; [lia|]. destruct Hstop as [Hm | Hm]; [now left | right; lia].
Qed.

(** X6. Whatever [userSimulation] returns: nothing at all, with nobody
    called, when [max] is zero or less; otherwise the messages of [k]
    turns, [1 <= k <= max], and then one eval entry for [until], resolved
    with the result of the last turn, where no earlier turn met [until]
    and the last one met it or was turn [max]. *)
Theorem userSimulation_returns_turns (max : option Z) (previous : list Message)
  (s s' : Run World) (out : Promises)
  (Hrun : Segment.evaluate (Segment.userSimulation user max until) agent previous s
          = (Returned out, s')) :
  ((Segment.maxIterationsOf max <= 0)%Z /\ out = [] /\ s' = s) \/
  exists msgs before met cs,
    Turns user until agent previous (world s) msgs (before ++ [met]) cs (world s') /\
    Forall (fun x => status x <> Some success) before /\
    out = map Segment.type_message msgs ++ [Segment.type_eval until (Resolved met)] /\
    calls s' = calls s ++ cs /\
    length msgs = 2 * (length before + 1) /\
    (Z.of_nat (length before + 1) <= Segment.maxIterationsOf max)%Z /\
    (status met = Some success \/
     Z.of_nat (length before + 1) = Segment.maxIterationsOf max).
Proof.
  cbn [Segment.evaluate Segment.userSimulation] in Hrun.
  destruct (Z.le_gt_cases (Segment.maxIterationsOf max) 0) as [Hle | Hgt].
  - left. rewrite loop_not_entered in Hrun by lia. inversion Hrun. auto.
  - right. apply loop_returns_turns in Hrun; [|f_equal; lia|lia].
    destruct Hrun as (msgs & before & met & cs & HT & Hbefore & Hout & Hcalls & Hk & Hstop).
    cbn in HT. rewrite app_nil_r in HT.
    exists msgs, before, met, cs. split; [exact HT|]. split; [exact Hbefore|].
    split; [exact Hout|]. split; [exact Hcalls|].
    pose proof (turns_length _ _ _ _ _ _ _ _ _ HT) as Hlen.
    rewrite length_app in Hlen. cbn [length] in Hlen.
    split; [lia|]. split; [lia|]. destruct Hstop as [Hm | Hm]; [now left | right; lia].
Qed.

(** Turns in which [until] is not met and which do not reach the last
    value of the counter are iterations the loop goes through. *)
Lemma loop_after_turns (maxIterations : Z) (previous : list Message)
  t w msgs rs cs w1 :
  Turns user until agent t w msgs rs cs w1 ->
  forall fuel i pushed c0,
    t = previous ++ Segment.messagesOf pushed ->
    Forall (fun x => status x <> Some success) rs ->
    (i + Z.of_nat (length rs) < maxIterations)%Z ->
    Segment.simulationLoop user until maxIterations agent previous
      (length rs + fuel) i pushed {| world := w; calls := c0 |}
    = Segment.simulationLoop user until maxIterations agent previous
        fuel (i + Z.of_nat (length rs))%Z (pushed ++ map Segment.type_message msgs)
        {| world := w1; calls := c0 ++ cs |}.
Proof.
  induction 1 as [t w | t w u w1 a w2 r w3 msgs rs cs w' Hu Ha Hr HT IH];
    intros fuel i pushed c0 Ht Hunmet Hi.
  - cbn. now rewrite Z.add_0_r, !app_nil_r.
  - subst t. inversion Hunmet as [|? ? Hx Hrest]; subst.
    cbn [length] in *. cbn [Nat.add].
    pose proof (loop_step user until maxIterations agent previous (length rs + fuel) i pushed
                  {| world := w; calls := c0 |} u w1 a w2 r w3) as L.
    cbn zeta in L. cbn [world calls] in L.
    specialize (L ltac:(lia) Hu Ha Hr). rewrite L. clear L.
    apply is_success_false in Hx. rewrite Hx.
    replace (i =? maxIterations - 1)%Z with false by (symmetry; apply Z.eqb_neq; lia).
    cbn [orb]. rewrite IH.
    + f_equal; [lia | cbn; rewrite <- !app_assoc; reflexivity
                | f_equal; rewrite <- !app_assoc; reflexivity].
    + rewrite !messagesOf_app. cbn. rewrite !app_assoc. reflexivity.
    + exact Hrest.
    + lia.
Qed.

(** X7. A rejection aborts [userSimulation] at once, with the error of the
    rejected promise, and the messages of the turns taken so far are not
    returned: after turns in which [until] was not met, with a turn still
    allowed, a rejection of the synthetic user, of the agent or of
    [until] is thrown by the segment. *)
Theorem userSimulation_aborts_on_rejection (max : option Z) (previous : list Message)
  (w : World) (c0 : list Call) (msgs : list Message) (rs : list (CriterionResult Any))
  (cs : list Call) (w1 : World)
  (Hturns : Turns user until agent previous w msgs rs cs w1)
  (Hunmet : Forall (fun x => status x <> Some success) rs)
  (Hk : (Z.of_nat (length rs) < Segment.maxIterationsOf max)%Z) :
  let t := previous ++ msgs in
  let run := Segment.evaluate (Segment.userSimulation user max until) agent previous
                              {| world := w; calls := c0 |} in
  (forall e w2,
     Segment.respond user (Segment.flipRoles t) w1 = (Rejected e, w2) ->
     run = (Thrown e,
            {| world := w2; calls := (c0 ++ cs) ++ [CallRespond (Segment.flipRoles t)] |})) /\
  (forall u w2 e w3,
     Segment.respond user (Segment.flipRoles t) w1 = (Resolved u, w2) ->
     invoke agent (t ++ [userTurn u]) w2 = (Rejected e, w3) ->
     run = (Thrown e,
            {| world := w3;
               calls := ((c0 ++ cs) ++ [CallRespond (Segment.flipRoles t)])
                          ++ [CallInvoke (t ++ [userTurn u])] |})) /\
  (forall u w2 a w3 e w4,
     Segment.respond user (Segment.flipRoles t) w1 = (Resolved u, w2) ->
     invoke agent (t ++ [userTurn u]) w2 = (Resolved a, w3) ->
     Criterion.evaluate until ((t ++ [userTurn u]) ++ [agentTurn a]) w3 = (Rejected e, w4) ->
     run = (Thrown e,
            {| world := w4;
               calls := (((c0 ++ cs) ++ [CallRespond (Segment.flipRoles t)])
                           ++ [CallInvoke (t ++ [userTurn u])])
                          ++ [CallEvaluate (Criterion.ref until)
                                           ((t ++ [userTurn u]) ++ [agentTurn a])] |})).
Proof.
  intros t run.
  assert (Hrun : run
                 = Segment.simulationLoop user until (Segment.maxIterationsOf max) agent
                     previous (S (Z.to_nat (Segment.maxIterationsOf max) - length rs - 1))
                     (Z.of_nat (length rs)) (map Segment.type_message msgs)
                     {| world := w1; calls := c0 ++ cs |}).
  { unfold run. cbn [Segment.evaluate Segment.userSimulation].
    replace (Z.to_nat (Segment.maxIterationsOf max))
      with (length rs + S (Z.to_nat (Segment.maxIterationsOf max) - length rs - 1)) at 1
      by lia.
    rewrite (loop_after_turns _ previous _ _ _ _ _ _ Hturns);
      [reflexivity | cbn; now rewrite app_nil_r | assumption | lia]. }
  rewrite Hrun. clear Hrun run.
  cbn [Segment.simulationLoop].
  replace (Z.of_nat (length rs) <? Segment.maxIterationsOf max)%Z with true
    by (symmetry; now apply Z.ltb_lt).
  rewrite messagesOf_messages. fold t.
  repeat split.
  - intros e w2 Hu. unfold bind at 1. unfold call at 1. cbn [world calls]. rewrite Hu.
    reflexivity.
  - intros u w2 e w3 Hu Ha. unfold bind at 1. unfold call at 1. cbn [world calls].
    rewrite Hu. unfold bind at 1. cbn [await ret].
    unfold bind at 1. unfold call at 1. cbn [world calls]. fold (userTurn u). rewrite Ha.
    reflexivity.
  - intros u w2 a w3 e w4 Hu Ha Hr. unfold bind at 1. unfold call at 1. cbn [world calls].
    rewrite Hu. unfold bind at 1. cbn [await ret].
    unfold bind at 1. unfold call at 1. cbn [world calls]. fold (userTurn u). rewrite Ha.
    unfold bind at 1. cbn [await ret].
    unfold bind at 1. unfold call at 1. cbn [world calls]. fold (agentTurn a). rewrite Hr.
    reflexivity.
Qed.

End SimulationRuns.

(** ** More on the eval runner *)

Section RunnerLaws.
Context {World Any : Type}.

Local Abbreviation Promises := (list (Segment.SegmentEvaluationPromise World Any)).
Local Abbreviation Entry := (EvalRunner.EvaluatedSegment World Any).

(** The loop over the segments of a scenario is the loop over its first
    part followed by the loop over the rest. *)
Lemma evaluateSegments_app (agent : Agent World)
  (first second : list (Segment.Segment World Any)) : forall pushed s,
  EvalRunner.evaluateSegments agent (first ++ second) pushed s
  = (out <- EvalRunner.evaluateSegments agent first pushed ;;
     EvalRunner.evaluateSegments agent second out) s.
Proof.
  induction first as [|segment first IH]; intros pushed s; [reflexivity|].
  cbn [app EvalRunner.evaluateSegments]. unfold bind.
  destruct (Segment.evaluate segment agent (Segment.messagesOf pushed) s)
    as [[segmentResult | e] s1]; [|reflexivity].
  rewrite IH. reflexivity.
Qed.

(** The loop only appends to what was pushed. *)
Lemma evaluateSegments_appends (agent : Agent World)
  (segments : list (Segment.Segment World Any)) : forall pushed s out s',
  EvalRunner.evaluateSegments agent segments pushed s = (Returned out, s') ->
  exists added, out = pushed ++ added.
Proof.
  induction segments as [|segment segments IH]; intros pushed s out s' Hrun.
  - cbn in Hrun. inversion Hrun. exists []. now rewrite app_nil_r.
  - cbn [EvalRunner.evaluateSegments] in Hrun. unfold bind at 1 in Hrun.
    destruct (Segment.evaluate segment agent (Segment.messagesOf pushed) s)
      as [[segmentResult | e] s1]; [|discriminate].
    destruct (IH _ _ _ _ Hrun) as [added ->].
    exists (segmentResult ++ added). now rewrite app_assoc.
Qed.

Lemma all_app {A : Type} (ps qs : list (Promise A)) : forall xs,
  all (ps ++ qs) = Resolved xs ->
  exists ys zs, all ps = Resolved ys /\ all qs = Resolved zs /\ xs = ys ++ zs.
Proof.
  induction ps as [|[a | e] ps IH]; intros xs H; cbn in H.
  - exists [], xs. auto.
  - destruct (all (ps ++ qs)) as [rest | e] eqn:Hrest; cbn in H; [|discriminate].
    inversion H; subst. destruct (IH rest eq_refl) as (ys & zs & Hy & Hz & ->).
    exists (a :: ys), zs. cbn. rewrite Hy. auto.
  - discriminate.
Qed.

Lemma resolved_messages (pushed : Promises) : forall results,
  all (map EvalRunner.resolveEntry pushed) = Resolved results ->
  resultMessages results = Segment.messagesOf pushed.
Proof.
  unfold resultMessages, Segment.messagesOf.
  induction pushed as [|x pushed IH]; intros results H; cbn in H.
  - inversion H. reflexivity.
  - destruct x as [c [r | err] | m]; cbn in H; try discriminate;
      (destruct (all (map EvalRunner.resolveEntry pushed)) as [ys | err'];
       cbn in H; [|discriminate]); inversion H; subst; cbn; rewrite (IH ys eq_refl);
      reflexivity.
Qed.

(** X11. The transcript of a report is made of the message entries of its
    results, in their order. *)
Theorem report_messages_are_result_messages
  (agent : EvalRunner.AgentOrFactory World)
  (segments : list (Segment.Segment World Any)) (s s' : Run World)
  (rep : EvalRunner.Report World Any)
  (Hrun : EvalRunner.evaluate agent segments s = (Returned rep, s')) :
  EvalRunner.messages rep = resultMessages (EvalRunner.results rep).
Proof.
  destruct (evaluate_returns _ _ _ _ _ Hrun)
    as (_agent & s0 & pushed & results & _ & _ & Hall & ->).
  cbn. symmetry. now apply resolved_messages.
Qed.

(** X12. A scenario continued by more segments keeps what it gave: the results
    and the transcript of the shorter scenario are the beginning of those
    of the longer one. *)
Theorem longer_scenario_extends_report
  (agent : EvalRunner.AgentOrFactory World)
  (first second : list (Segment.Segment World Any)) (s s1 s' : Run World)
  (rep1 rep : EvalRunner.Report World Any)
  (Hfirst : EvalRunner.evaluate agent first s = (Returned rep1, s1))
  (Hboth : EvalRunner.evaluate agent (first ++ second) s = (Returned rep, s')) :
  exists more,
    EvalRunner.results rep = EvalRunner.results rep1 ++ more /\
    EvalRunner.messages rep = EvalRunner.messages rep1 ++ resultMessages more.
Proof.
  unfold EvalRunner.evaluate in Hfirst, Hboth.
  unfold bind at 1 in Hfirst. unfold bind at 1 in Hboth.
  destruct (match agent with
            | EvalRunner.the_agent a => ret a
            | EvalRunner.the_factory f => p <- call CallFactory f ;; await p
            end s) as [[_agent | e] s0]; [|discriminate].
  unfold bind at 1 in Hfirst. unfold bind at 1 in Hboth.
  rewrite evaluateSegments_app in Hboth. unfold bind at 1 in Hboth.
  destruct (EvalRunner.evaluateSegments _agent first [] s0) as [[pushed1 | e] s2] eqn:H1;
    [|discriminate].
  destruct (EvalRunner.evaluateSegments _agent second pushed1 s2) as [[pushed | e] s3] eqn:H2;
    [|discriminate].
  destruct (evaluateSegments_appends _ _ _ _ _ _ H2) as [added ->].
  unfold bind at 1 in Hfirst. unfold bind at 1 in Hboth.
  destruct (all (map EvalRunner.resolveEntry pushed1)) as [results1 | e] eqn:Hall1;
    cbn in Hfirst; [|discriminate].
  destruct (all (map EvalRunner.resolveEntry (pushed1 ++ added))) as [results | e] eqn:Hall;
    cbn in Hboth; [|discriminate].
  inversion Hfirst; subst. inversion Hboth; subst. clear Hfirst Hboth.
  rewrite map_app in Hall.
  destruct (all_app _ _ _ Hall) as (ys & zs & Hy & Hz & ->).
  rewrite Hall1 in Hy. inversion Hy; subst.
  exists zs. cbn. split; [reflexivity|].
  rewrite messagesOf_app. f_equal. symmetry. now apply resolved_messages.
Qed.

Lemma getResults_entries (results : list Entry) (c : Criterion.Criterion World Any)
  (r : CriterionResult Any) :
  In r (flat_map (fun x => match x with
                           | EvalRunner.type_eval e =>
                               if EvalRunner.sameCriterion (EvalRunner.criterion e) c
                               then [EvalRunner.evalResult e] else []
                           | EvalRunner.type_message _ => []
                           end) results)
  <-> exists e, In (EvalRunner.type_eval e) results /\
                Criterion.ref (EvalRunner.criterion e) = Criterion.ref c /\
                EvalRunner.evalResult e = r.
Proof.
  rewrite in_flat_map. unfold EvalRunner.sameCriterion. split.
  - intros ([m | e] & Hin & Hr); [destruct Hr|].
    destruct (Nat.eqb_spec (Criterion.ref (EvalRunner.criterion e)) (Criterion.ref c))
      as [Heq | Hne]; [|destruct Hr].
    destruct Hr as [<- | []]. now exists e.
  - intros (e & Hin & Href & <-). exists (EvalRunner.type_eval e). split; [exact Hin|].
    rewrite Href, Nat.eqb_refl. now left.
Qed.

(** X13. The three lookups agree: [getResult] gives the first of the results
    [getResults] gives, [getResultOrThrow] returns it and throws only
    when there is none; the results of a criterion are those of the eval
    entries that carry its identity. *)
Theorem lookups_agree
  (agent : EvalRunner.AgentOrFactory World)
  (segments : list (Segment.Segment World Any)) (s s' : Run World)
  (rep : EvalRunner.Report World Any) (c : Criterion.Criterion World Any)
  (Hrun : EvalRunner.evaluate agent segments s = (Returned rep, s')) :
  EvalRunner.getResult rep c = hd_error (EvalRunner.getResults rep c) /\
  EvalRunner.getResultOrThrow rep c
  = match EvalRunner.getResults rep c with
    | r :: _ => Returned r
    | [] => Thrown (mkError ("Cannot find results for criterion " ++ Criterion.name c))
    end /\
  (forall r, In r (EvalRunner.getResults rep c) <->
             exists e, In (EvalRunner.type_eval e) (EvalRunner.results rep) /\
                       Criterion.ref (EvalRunner.criterion e) = Criterion.ref c /\
                       EvalRunner.evalResult e = r).
Proof.
  destruct (evaluate_returns _ _ _ _ _ Hrun)
    as (_agent & s0 & pushed & results & _ & _ & _ & ->).
  cbn [EvalRunner.report EvalRunner.getResult EvalRunner.getResults
       EvalRunner.getResultOrThrow EvalRunner.results].
  clear Hrun.
  assert (Hhead : EvalRunner.findResult results c
                  = hd_error (flat_map (fun x => match x with
                       | EvalRunner.type_eval e =>
                           if EvalRunner.sameCriterion (EvalRunner.criterion e) c
                           then [EvalRunner.evalResult e] else []
                       | EvalRunner.type_message _ => []
                       end) results)).
  { unfold EvalRunner.findResult.
    induction results as [|[m | e] results IH]; [reflexivity | cbn; exact IH |].
    cbn. destruct (EvalRunner.sameCriterion (EvalRunner.criterion e) c); [reflexivity|].
    exact IH. }
  split; [exact Hhead|]. split; [|apply getResults_entries].
  rewrite Hhead. now destruct (flat_map _ results).
Qed.



Lemma factoryCalls_app (a b : list Call) :
  factoryCalls (a ++ b) = factoryCalls a + factoryCalls b.
Proof.
  unfold factoryCalls. now rewrite filter_app, length_app.
Qed.

Lemma loop_calls_no_factory (user : Segment.SyntheticUser World)
  (until : Criterion.Criterion World Any) (maxIterations : Z) (agent : Agent World)
  (previous : list Message) (fuel : nat) : forall i pushed s,
  factoryCalls (calls (snd (Segment.simulationLoop user until maxIterations agent previous
                              fuel i pushed s)))
  = factoryCalls (calls s).
Proof.
  induction fuel as [|fuel IH]; intros i pushed s; [reflexivity|].
  cbn [Segment.simulationLoop].
  destruct (i <? maxIterations)%Z; [|reflexivity].
  unfold bind, call.
  destruct (Segment.respond user _ (world s)) as [[u | e] w1]; cbn -[factoryCalls];
    [|now rewrite factoryCalls_app, Nat.add_0_r].
  destruct (invoke agent _ w1) as [[a | e] w2]; cbn -[factoryCalls];
    [|now rewrite !factoryCalls_app, !Nat.add_0_r].
  destruct (Criterion.evaluate until _ w2) as [[r | e] w3]; cbn -[factoryCalls];
    [|now rewrite !factoryCalls_app, !Nat.add_0_r].
  destruct (is_success (status r)); cbn -[factoryCalls];
    [now rewrite !factoryCalls_app, !Nat.add_0_r|].
  destruct (i =? maxIterations - 1)%Z; cbn -[factoryCalls];
    [now rewrite !factoryCalls_app, !Nat.add_0_r|].
  rewrite IH. cbn -[factoryCalls]. now rewrite !factoryCalls_app, !Nat.add_0_r.
Qed.

Lemma exported_segment_no_factory (segment : Segment.Segment World Any)
  (agent : Agent World) (previous : list Message) (s : Run World) :
  Exported segment ->
  factoryCalls (calls (snd (Segment.evaluate segment agent previous s)))
  = factoryCalls (calls s).
Proof.
  intros [m | | c | user max until].
  - reflexivity.
  - cbn -[factoryCalls]. unfold bind, call.
    destruct (invoke agent previous (world s)) as [[a | e] w]; cbn -[factoryCalls];
      now rewrite factoryCalls_app, Nat.add_0_r.
  - cbn -[factoryCalls]. destruct (length previous =? 0)%nat; [reflexivity|].
    unfold bind, call.
    destruct (Criterion.evaluate c previous (world s)) as [p w]. cbn -[factoryCalls].
    now rewrite factoryCalls_app, Nat.add_0_r.
  - cbn [Segment.evaluate Segment.userSimulation]. apply loop_calls_no_factory.
Qed.

Lemma evaluateSegments_no_factory (agent : Agent World)
  (segments : list (Segment.Segment World Any)) :
  Forall Exported segments ->
  forall pushed s,
    factoryCalls (calls (snd (EvalRunner.evaluateSegments agent segments pushed s)))
    = factoryCalls (calls s).
Proof.
  induction 1 as [|segment segments Hseg _ IH]; intros pushed s; [reflexivity|].
  cbn [EvalRunner.evaluateSegments]. unfold bind at 1.
  pose proof (exported_segment_no_factory segment agent (Segment.messagesOf pushed) s Hseg)
    as Hstep.
  destruct (Segment.evaluate segment agent (Segment.messagesOf pushed) s)
    as [[segmentResult | e] s1]; cbn -[factoryCalls] in Hstep |- *; [|exact Hstep].
  now rewrite IH.
Qed.

Lemma evaluate_agent_no_factory (a : Agent World)
  (segments : list (Segment.Segment World Any)) (s : Run World) :
  Forall Exported segments ->
  factoryCalls (calls (snd (EvalRunner.evaluate (EvalRunner.the_agent a) segments s)))
  = factoryCalls (calls s).
Proof.
  intros Hexp. unfold EvalRunner.evaluate. unfold bind at 1. cbn [ret].
  pose proof (evaluateSegments_no_factory a segments Hexp [] s) as Hsegs.
  unfold bind at 1.
  destruct (EvalRunner.evaluateSegments a segments [] s) as [[pushed | e] s1];
    cbn -[factoryCalls] in Hsegs |- *; [|exact Hsegs].
  unfold bind. destruct (all (map EvalRunner.resolveEntry pushed)); exact Hsegs.
Qed.

(** X14. An agent given as a factory is made once, before any segment runs:
    the factory is called exactly once in a run, a rejection of the
    factory aborts the run with no segment run, and otherwise the run is
    the run with the agent made.  An agent given as it is involves no
    factory call. *)
Theorem agent_factory_called_once_first
  (f : World -> Promise (Agent World) * World)
  (segments : list (Segment.Segment World Any)) (s : Run World)
  (Hexported : Forall Exported segments) :
  let made := f (world s) in
  let s0 := {| world := snd made; calls := calls s ++ [CallFactory] |} in
  let run := EvalRunner.evaluate (EvalRunner.the_factory f) segments s in
  factoryCalls (calls (snd run)) = factoryCalls (calls s) + 1 /\
  (forall e, fst made = Rejected e -> run = (Thrown e, s0)) /\
  (forall a, fst made = Resolved a ->
             run = EvalRunner.evaluate (EvalRunner.the_agent a) segments s0) /\
  (forall a, factoryCalls (calls (snd (EvalRunner.evaluate (EvalRunner.the_agent a)
                                         segments s)))
             = factoryCalls (calls s)).
Proof.
  intros made s0 run.
  assert (Hrun : run = match fst made with
                       | Resolved a => EvalRunner.evaluate (EvalRunner.the_agent a) segments s0
                       | Rejected e => (Thrown e, s0)
                       end).
  { unfold run, s0, made, EvalRunner.evaluate. unfold bind at 1 2. unfold call.
    destruct (f (world s)) as [[a | e] w]; reflexivity. }
  split; [|split; [|split]].
  - rewrite Hrun. destruct (fst made) as [a | e].
    + rewrite evaluate_agent_no_factory by assumption. unfold s0. cbn -[factoryCalls].
      now rewrite factoryCalls_app.
    + unfold s0. cbn -[factoryCalls]. now rewrite factoryCalls_app.
  - intros e He. now rewrite Hrun, He.
  - intros a Ha. now rewrite Hrun, Ha.
  - intros a. now apply evaluate_agent_no_factory.
Qed.

Lemma all_after_resolved {A : Type} (ps qs : list (Promise A)) : forall xs,
  all ps = Resolved xs -> all (ps ++ qs) = then_ (all qs) (app xs).
Proof.
  induction ps as [|[a | e] ps IH]; intros xs H; cbn in H.
  - inversion H. cbn. now destruct (all qs).
  - destruct (all ps) as [ys | e] eqn:Hys; cbn in H; [|discriminate].
    inversion H; subst. cbn. rewrite (IH ys eq_refl). now destruct (all qs).
  - discriminate.
Qed.

(** A scenario with one more segment: the segment is evaluated on the
    transcript of the report of the scenario before it, in the state
    that scenario left. *)
Lemma evaluate_one_more (agent : Agent World)
  (segments : list (Segment.Segment World Any)) (s s1 : Run World)
  (rep1 : EvalRunner.Report World Any) :
  EvalRunner.evaluate (EvalRunner.the_agent agent) segments s = (Returned rep1, s1) ->
  exists pushed1 results1,
    rep1 = EvalRunner.report pushed1 results1 /\
    forall segment,
      EvalRunner.evaluate (EvalRunner.the_agent agent) (segments ++ [segment]) s
      = match Segment.evaluate segment agent (EvalRunner.messages rep1) s1 with
        | (Returned out, s2) =>
            (match all (map EvalRunner.resolveEntry out) with
             | Resolved results =>
                 Returned (EvalRunner.report (pushed1 ++ out) (results1 ++ results))
             | Rejected e => Thrown e
             end, s2)
        | (Thrown e, s2) => (Thrown e, s2)
        end.
Proof.
  unfold EvalRunner.evaluate. unfold bind at 1. cbn [ret]. unfold bind at 1.
  destruct (EvalRunner.evaluateSegments agent segments [] s) as [[pushed1 | e] s0] eqn:Hsegs;
    [|discriminate].
  unfold bind at 1.
  destruct (all (map EvalRunner.resolveEntry pushed1)) as [results1 | e] eqn:Hall;
    cbn; [|discriminate].
  intros H. inversion H; subst. clear H.
  exists pushed1, results1. split; [reflexivity|]. intros segment.
  unfold bind at 1.
  rewrite evaluateSegments_app. unfold bind at 1. rewrite Hsegs.
  cbn [EvalRunner.evaluateSegments EvalRunner.report EvalRunner.messages].
  unfold bind at 1.
  destruct (Segment.evaluate segment agent (Segment.messagesOf pushed1) s1)
    as [[out | e] s2]; [|reflexivity].
  cbn [ret]. unfold bind at 1. rewrite map_app, (all_after_resolved _ _ _ Hall).
  destruct (all (map EvalRunner.resolveEntry out)); reflexivity.
Qed.

(** X8. [agentResponse] after a scenario: the agent is invoked on the
    transcript of the report so far, eval entries left out.  Its message
    is added to the results and to the transcript; its rejection aborts
    the run. *)
Theorem agentResponse_answers_the_transcript (agent : Agent World)
  (segments : list (Segment.Segment World Any)) (s s1 : Run World)
  (rep1 : EvalRunner.Report World Any)
  (Hfirst : EvalRunner.evaluate (EvalRunner.the_agent agent) segments s = (Returned rep1, s1)) :
  let asked := invoke agent (EvalRunner.messages rep1) (world s1) in
  let s2 := {| world := snd asked;
               calls := calls s1 ++ [CallInvoke (EvalRunner.messages rep1)] |} in
  let run := EvalRunner.evaluate (EvalRunner.the_agent agent)
                                 (segments ++ [Segment.agentResponse]) s in
  (forall e, fst asked = Rejected e -> run = (Thrown e, s2)) /\
  (forall a, fst asked = Resolved a ->
     exists rep,
       run = (Returned rep, s2) /\
       EvalRunner.results rep
       = EvalRunner.results rep1 ++ [EvalRunner.type_message (Assistant (message_of a))] /\
       EvalRunner.messages rep = EvalRunner.messages rep1 ++ [Assistant (message_of a)]).
Proof.
  intros asked s2 run.
  destruct (evaluate_one_more _ _ _ _ _ Hfirst) as (pushed1 & results1 & -> & Hmore).
  unfold run. rewrite Hmore. clear Hmore.
  cbn [Segment.evaluate Segment.agentResponse]. unfold bind, call.
  subst s2 asked. cbn [EvalRunner.messages EvalRunner.report].
  destruct (invoke agent (Segment.messagesOf pushed1) (world s1)) as [[a | e] w]; cbn.
  - split; [intros e He; discriminate He|]. intros a' Ha. inversion Ha; subst.
    eexists. split; [reflexivity|]. cbn. split; [reflexivity|].
    rewrite messagesOf_app. reflexivity.
  - split; [|intros a Ha; discriminate Ha]. intros e' He. inversion He; subst. reflexivity.
Qed.

Lemma getResults_app (pushed pushed' : Promises) (results results' : list Entry)
  (c : Criterion.Criterion World Any) :
  EvalRunner.getResults (EvalRunner.report pushed' (results ++ results')) c
  = EvalRunner.getResults (EvalRunner.report pushed results) c
      ++ EvalRunner.getResults (EvalRunner.report pushed results') c.
Proof.
  cbn. apply flat_map_app.
Qed.

(** X9. [aiEval] after a scenario with messages: the criterion is evaluated
    on the transcript of the report so far, its result is added to the
    results of that criterion, and it is the result the lookups give
    when the criterion had none before.  The transcript is not changed.
    A rejection aborts the run. *)
Theorem aiEval_result_is_found (agent : Agent World)
  (segments : list (Segment.Segment World Any)) (s s1 : Run World)
  (rep1 : EvalRunner.Report World Any) (c : Criterion.Criterion World Any)
  (Hfirst : EvalRunner.evaluate (EvalRunner.the_agent agent) segments s = (Returned rep1, s1))
  (Hmessages : EvalRunner.messages rep1 <> []) :
  let started := Criterion.evaluate c (EvalRunner.messages rep1) (world s1) in
  let s2 := {| world := snd started;
               calls := calls s1 ++ [CallEvaluate (Criterion.ref c)
                                                  (EvalRunner.messages rep1)] |} in
  let run := EvalRunner.evaluate (EvalRunner.the_agent agent)
                                 (segments ++ [Segment.aiEval c]) s in
  (forall e, fst started = Rejected e -> run = (Thrown e, s2)) /\
  (forall r, fst started = Resolved r ->
     exists rep,
       run = (Returned rep, s2) /\
       EvalRunner.messages rep = EvalRunner.messages rep1 /\
       EvalRunner.getResults rep c = EvalRunner.getResults rep1 c ++ [r] /\
       (EvalRunner.getResults rep1 c = [] ->
        EvalRunner.getResult rep c = Some r /\
        EvalRunner.getResultOrThrow rep c = Returned r)).
Proof.
  intros started s2 run.
  destruct (evaluate_one_more _ _ _ _ _ Hfirst) as (pushed1 & results1 & -> & Hmore).
  assert (Hrun : run
                 = (match fst started with
                    | Resolved r =>
                        Returned (EvalRunner.report
                                    (pushed1 ++ [Segment.type_eval c (Resolved r)])
                                    (results1 ++ [EvalRunner.type_eval
                                                    {| EvalRunner.evalResult := r;
                                                       EvalRunner.criterion := c |}]))
                    | Rejected e => Thrown e
                    end, s2)).
  { subst run s2 started. rewrite Hmore.
    cbn [Segment.evaluate Segment.aiEval EvalRunner.messages EvalRunner.report] in *.
    destruct (Segment.messagesOf pushed1) as [|m ms] eqn:Hm; [congruence|].
    cbn [length Nat.eqb]. unfold bind, call.
    destruct (Criterion.evaluate c (m :: ms) (world s1)) as [[r | e] w]; reflexivity. }
  rewrite Hrun. split.
  - intros e He. now rewrite He.
  - intros r Hr. rewrite Hr. eexists. split; [reflexivity|].
    split; [cbn; rewrite messagesOf_app; cbn; now rewrite app_nil_r|].
    assert (Hall : EvalRunner.getResults
                     (EvalRunner.report (pushed1 ++ [Segment.type_eval c (Resolved r)])
                        (results1 ++ [EvalRunner.type_eval
                                        {| EvalRunner.evalResult := r;
                                           EvalRunner.criterion := c |}])) c
                   = EvalRunner.getResults (EvalRunner.report pushed1 results1) c ++ [r]).
    { rewrite (getResults_app pushed1). f_equal. cbn.
      unfold EvalRunner.sameCriterion. now rewrite Nat.eqb_refl. }
    split; [exact Hall|]. intros Hnone.
    assert (Hfind : EvalRunner.findResult
                      (results1 ++ [EvalRunner.type_eval
                                      {| EvalRunner.evalResult := r;
                                         EvalRunner.criterion := c |}]) c = Some r).
    { rewrite Hnone in Hall. cbn in Hall, Hnone. clear - Hnone.
      unfold EvalRunner.findResult.
      induction results1 as [|[m | e] results1 IH]; cbn in *.
      - unfold EvalRunner.sameCriterion. now rewrite Nat.eqb_refl.
      - now apply IH.
      - destruct (EvalRunner.sameCriterion (EvalRunner.criterion e) c); [discriminate|].
        now apply IH. }
    cbn. now rewrite Hfind.
Qed.

End RunnerLaws.

(** ** Tool calls of a transcript *)

Section Extraction.







Lemma setResults_nothing_follows (calls : list ToolCall) :
  ToolsCalled.setResults calls [] = Returned calls.
Proof.
  induction calls as [|[id name args [own|]] calls IH]; [reflexivity | |];
    cbn; rewrite IH; reflexivity.
Qed.

Lemma no_tool_results (messages : list Message) :
  toolContents messages = [] -> ToolsCalled.toolResultsOf messages = [].
Proof.
  induction messages as [|[a | u | t | sy] messages IH]; cbn; intros H;
    try discriminate; auto.
Qed.

(** X16. On a transcript without tool messages the extraction returns the
    calls of the assistant messages as they are: those of [tool_calls]
    without a result, those of the context with theirs. *)
Theorem extraction_without_tool_messages (messages : list Message)
  (Hnone : toolContents messages = []) :
  ToolsCalled.extractToolCallsFromMessages messages = Returned (assistantCalls messages).
Proof.
  induction messages as [|[a | u | t | sy] messages IH]; cbn in Hnone |- *;
    try discriminate; auto.
  rewrite (no_tool_results _ Hnone), setResults_nothing_follows. cbn.
  now rewrite (IH Hnone).
Qed.

Lemma findIndexFrom_throws (call : ToolCall) (following : ToolsCalled.ToolResults) :
  forall k e, ToolsCalled.findIndexFrom call following k = Thrown e ->
              e = ToolsCalled.undefinedRead.
Proof.
  induction following as [|[result|] following IH]; intros k e H; cbn in H.
  - discriminate.
  - destruct (ToolsCalled.resultOf call result); [discriminate | eauto].
  - now inversion H.
Qed.

Lemma setResults_throws (calls : list ToolCall) : forall following e,
  ToolsCalled.setResults calls following = Thrown e -> e = ToolsCalled.undefinedRead.
Proof.
  induction calls as [|call calls IH]; intros following e H; cbn in H; [discriminate|].
  unfold ToolsCalled.setResult, ToolsCalled.andThen in H.
  destruct (ToolsCalled.findIndexFrom call following 0) as [[index|] | e0] eqn:Hfind.
  - destruct (ToolsCalled.setResults calls _) eqn:Hrest; [discriminate|].
    inversion H; subst. eauto.
  - destruct (tc_result call);
      (destruct (ToolsCalled.setResults calls _) eqn:Hrest; [discriminate|]);
      inversion H; subst; eauto.
  - inversion H; subst. eapply findIndexFrom_throws; eassumption.
Qed.

Lemma extraction_throws (messages : list Message) : forall e,
  ToolsCalled.extractToolCallsFromMessages messages = Thrown e ->
  e = ToolsCalled.undefinedRead.
Proof.
  induction messages as [|[a | u | t | sy] messages IH]; intros e H; cbn in H;
    try discriminate; eauto.
  unfold ToolsCalled.andThen in H.
  destruct (ToolsCalled.setResults _ _) eqn:Hhere.
  - destruct (ToolsCalled.extractToolCallsFromMessages messages) eqn:Hrest; [discriminate|].
    inversion H; subst. eauto.
  - inversion H; subst. eapply setResults_throws; eassumption.
Qed.

(** X17. The extraction throws when an assistant message carries two tool
    calls and the first tool result that follows is taken by the first
    of them: the slot of that result is emptied, and the search for the
    second call reads it.  This holds wherever the message stands in the
    transcript. *)
Theorem extraction_throws_on_emptied_slot (before : list Message) (a : AIMessage)
  (following : list Message) (c1 c2 : ToolCall) (more : list ToolCall)
  (r : JsRecord) (others : ToolsCalled.ToolResults)
  (Hcalls : ToolsCalled.callsOf a = c1 :: c2 :: more)
  (Hfollowing : ToolsCalled.toolResultsOf following = Some r :: others)
  (Hfirst : ToolsCalled.resultOf c1 r = true) :
  ToolsCalled.extractToolCallsFromMessages (before ++ Assistant a :: following)
  = Thrown ToolsCalled.undefinedRead.
Proof.
  assert (Hhere : ToolsCalled.extractToolCallsFromMessages (Assistant a :: following)
                  = Thrown ToolsCalled.undefinedRead).
  { cbn. rewrite Hcalls, Hfollowing. cbn.
    unfold ToolsCalled.setResult at 1. cbn [ToolsCalled.findIndexFrom].
    rewrite Hfirst. reflexivity. }
  induction before as [|[a' | u | t | sy] before IH]; cbn [app]; try exact Hhere;
    cbn [ToolsCalled.extractToolCallsFromMessages]; try exact IH.
  unfold ToolsCalled.andThen.
  destruct (ToolsCalled.setResults _ _) as [calls | e] eqn:Hcalls'.
  - now rewrite IH.
  - now rewrite (setResults_throws _ _ _ Hcalls').
Qed.

End Extraction.

(** ** The criterion [aiToolsCalled] *)

Section ToolsCalledFacts.
Context {World : Type}.

Local Abbreviation Assertion := (ToolsCalled.ToolCallAssertion World).

(** The tool of an assertion is among the calls. *)
Local Abbreviation calledIn calls :=
  (fun a : Assertion => exists call, In call calls /\ tc_name call = ToolsCalled.name a).

Lemma find_by_name (nm : string) (calls : list ToolCall) :
  match find (fun call => String.eqb (tc_name call) nm) calls with
  | Some call => In call calls /\ tc_name call = nm
  | None => forall call, In call calls -> tc_name call <> nm
  end.
Proof.
  destruct (find _ calls) as [call|] eqn:Hfind.
  - apply find_some in Hfind. destruct Hfind as [Hin Heq].
    split; [exact Hin | now apply String.eqb_eq].
  - intros call Hin Heq. pose proof (find_none _ _ Hfind call Hin) as Hno.
    cbn in Hno. apply String.eqb_neq in Hno. contradiction.
Qed.

Ltac scored_failure :=
  do 2 eexists; split; [reflexivity|]; cbn;
  split; [discriminate|];
  split; [intros H; first [discriminate H | split; reflexivity]|];
  split; [intros _; reflexivity|];
  intros H; discriminate H.

(** The loop over the assertions always returns a result, with a status;
    order is reported as not satisfied only when it is asserted, an error
    is attached only to a failure, and a success means that every
    assertion found its tool and, when order is asserted, found it at
    its own place from the end. *)
Lemma checkFrom_returns (assertOrder : option bool) (reversedActual : list ToolCall)
  (assertions : list Assertion) : forall i w,
  exists r w',
    ToolsCalled.checkFrom assertOrder reversedActual assertions i w = (Returned r, w') /\
    status r <> None /\
    (ToolsCalled.toolCallOrderSatisfied (output r) = false ->
     assertOrder = Some true /\ status r = Some failure) /\
    (error r <> None -> status r = Some failure) /\
    (status r = Some success ->
     Forall (calledIn reversedActual) assertions /\
     (assertOrder = Some true ->
      forall j a, nth_error assertions j = Some a ->
                  exists call, nth_error reversedActual (i + j) = Some call /\
                               tc_name call = ToolsCalled.name a)).
Proof.
  induction assertions as [|a assertions IH]; intros i w.
  - do 2 eexists. split; [reflexivity|]. cbn.
    split; [discriminate|]. split; [intros H; discriminate H|].
    split; [intros H; now destruct H|]. intros _. split; [constructor|].
    intros _ [|j] a' H; discriminate H.
  - assert (Hcall : forall (ordered : assertOrder = Some true ->
                              exists call, nth_error reversedActual i = Some call /\
                                           tc_name call = ToolsCalled.name a),
      exists r w',
        (match find (fun call => String.eqb (tc_name call) (ToolsCalled.name a)) reversedActual with
         | None => ret (ToolsCalled.notCalled true a)
         | Some actualToolCall =>
             match ToolsCalled.assertion a with
             | None => ToolsCalled.checkFrom assertOrder reversedActual assertions (S i)
             | Some assert =>
                 fun w =>
                   let (p, w') := assert actualToolCall w in
                   match p with
                   | Resolved (Some false) => (Returned (ToolsCalled.assertionFailed a None), w')
                   | Resolved _ =>
                       ToolsCalled.checkFrom assertOrder reversedActual assertions (S i) w'
                   | Rejected e =>
                       (Returned (ToolsCalled.assertionFailed a (Some (ToolsCalled.caught e))),
                        w')
                   end
             end
         end) w = (Returned r, w') /\
        status r <> None /\
        (ToolsCalled.toolCallOrderSatisfied (output r) = false ->
         assertOrder = Some true /\ status r = Some failure) /\
        (error r <> None -> status r = Some failure) /\
        (status r = Some success ->
         Forall (calledIn reversedActual) (a :: assertions) /\
         (assertOrder = Some true ->
          forall j a', nth_error (a :: assertions) j = Some a' ->
                       exists call, nth_error reversedActual (i + j) = Some call /\
                                    tc_name call = ToolsCalled.name a'))).
    { intros Hordered.
      assert (Hnext : forall w0 call, In call reversedActual ->
                 tc_name call = ToolsCalled.name a ->
                 exists r w',
                   ToolsCalled.checkFrom assertOrder reversedActual assertions (S i) w0
                   = (Returned r, w') /\
                   status r <> None /\
                   (ToolsCalled.toolCallOrderSatisfied (output r) = false ->
                    assertOrder = Some true /\ status r = Some failure) /\
                   (error r <> None -> status r = Some failure) /\
                   (status r = Some success ->
                    Forall (calledIn reversedActual) (a :: assertions) /\
                    (assertOrder = Some true ->
                     forall j a', nth_error (a :: assertions) j = Some a' ->
                                  exists call, nth_error reversedActual (i + j) = Some call /\
                                               tc_name call = ToolsCalled.name a'))).
      { intros w0 call Hin Hname.
        destruct (IH (S i) w0) as (r & w' & Hrun & Hst & Hord & Herr & Hok).
        exists r, w'. repeat split; try assumption; try (now apply Hord).
        - constructor; [now exists call | now apply Hok].
        - intros Hao [|j] a' Hnth.
          + cbn in Hnth. inversion Hnth; subst. rewrite Nat.add_0_r. now apply Hordered.
          + cbn in Hnth. replace (i + S j) with (S i + j) by lia.
            destruct Hok as [_ Hok']; [assumption|]. now apply Hok'. }
      pose proof (find_by_name (ToolsCalled.name a) reversedActual) as Hfind.
      destruct (find _ reversedActual) as [actual|].
      - destruct Hfind as [Hin Hname].
        destruct (ToolsCalled.assertion a) as [assert|]; [|now apply (Hnext w actual)].
        destruct (assert actual w) as [[[[|]|] | e] w1].
        + now apply (Hnext w1 actual).
        + scored_failure.
        + now apply (Hnext w1 actual).
        + scored_failure.
      - scored_failure. }
    cbn [ToolsCalled.checkFrom].
    destruct assertOrder as [[|]|]; try (apply Hcall; discriminate).
    destruct (nth_error reversedActual i) as [corresponding|] eqn:Hnth.
    + destruct (String.eqb_spec (tc_name corresponding) (ToolsCalled.name a)) as [Heq | Hne];
        cbn [negb].
      * apply Hcall. intros _. now exists corresponding.
      * scored_failure.
    + scored_failure.
Qed.

(** Found place by place from the start, the names are those of the
    first calls, and the other way round. *)
Lemma names_in_place (assertions : list Assertion) : forall calls : list ToolCall,
  (forall j a, nth_error assertions j = Some a ->
               exists call, nth_error calls j = Some call /\
                            tc_name call = ToolsCalled.name a)
  <-> length assertions <= length calls /\
      map tc_name (firstn (length assertions) calls) = map ToolsCalled.name assertions.
Proof.
  induction assertions as [|a assertions IH]; intros calls.
  - cbn. split; [intros _; split; [lia | reflexivity]|].
    intros _ [|j] a H; discriminate H.
  - split.
    + intros H. destruct (H 0 a eq_refl) as (call & Hcall & Hname).
      destruct calls as [|c calls]; [discriminate|]. cbn in Hcall. inversion Hcall; subst.
      destruct (proj1 (IH calls)) as [Hlen Hmap].
      { intros j a' Hj. exact (H (S j) a' Hj). }
      cbn. split; [lia|]. now rewrite Hname, Hmap.
    + intros [Hlen Hmap] j a' Hj.
      destruct calls as [|c calls]; [cbn in Hlen; lia|].
      cbn in Hmap. inversion Hmap as [[Hname Hrest]].
      destruct j as [|j]; cbn in Hj |- *.
      * inversion Hj; subst. now exists c.
      * apply (proj2 (IH calls)); [|exact Hj]. cbn in Hlen. split; [lia | exact Hrest].
Qed.

Lemma last_calls_reversed (actual : list ToolCall) (toolCalls : list Assertion) :
  (length (rev toolCalls) <= length (rev actual) /\
   map tc_name (firstn (length (rev toolCalls)) (rev actual))
   = map ToolsCalled.name (rev toolCalls))
  <-> (length toolCalls <= length actual /\
       map tc_name (skipn (length actual - length toolCalls) actual)
       = map ToolsCalled.name toolCalls).
Proof.
  rewrite !length_rev, firstn_rev, !map_rev. split; intros [Hlen Hmap]; (split; [exact Hlen|]).
  - apply (f_equal (@rev string)) in Hmap. now rewrite !rev_involutive in Hmap.
  - now rewrite Hmap.
Qed.

(** X18. [aiToolsCalled] with no assertion succeeds on every transcript,
    without looking at it.  With assertions it rejects exactly when the
    extraction of the tool calls throws; otherwise it resolves with a
    status, which is failure when order is reported as not satisfied or
    an error is attached: an assertion that throws is a scored failure,
    not a rejection. *)
Theorem aiToolsCalled_settles (fresh : nat) (assertOrder : option bool)
  (toolCalls : list Assertion) (messages : list Message) (w : World) :
  let run := Criterion.evaluate (ToolsCalled.aiToolsCalled fresh assertOrder toolCalls)
                                messages w in
  (toolCalls = [] ->
   run = (Resolved {| output := {| ToolsCalled.toolCallOrderSatisfied := true |};
                      reason := Some "No tool calls to check";
                      error := None;
                      status := Some success |}, w)) /\
  (toolCalls <> [] ->
   forall e, ToolsCalled.extractToolCallsFromMessages messages = Thrown e ->
             run = (Rejected e, w)) /\
  (toolCalls <> [] ->
   forall actual, ToolsCalled.extractToolCallsFromMessages messages = Returned actual ->
     exists r w',
       run = (Resolved r, w') /\
       status r <> None /\
       (ToolsCalled.toolCallOrderSatisfied (output r) = false ->
        assertOrder = Some true /\ status r = Some failure) /\
       (error r <> None -> status r = Some failure)).
Proof.
  cbn. split; [intros ->; reflexivity|].
  split.
  - intros Hsome e He. destruct toolCalls as [|a rest]; [congruence|].
    cbn [length Nat.eqb]. unfold ToolsCalled.settle. rewrite He. reflexivity.
  - intros Hsome actual Hactual. destruct toolCalls as [|a rest]; [congruence|].
    cbn [length Nat.eqb]. unfold ToolsCalled.settle. rewrite Hactual.
    destruct (checkFrom_returns assertOrder (rev actual) (rev (a :: rest)) 0 w)
      as (r & w' & Hrun & Hst & Hord & Herr & _).
    rewrite Hrun. now exists r, w'.
Qed.

(** X19. A success of [aiToolsCalled] with assertions means that the
    extraction returned, that every asserted tool is among the calls
    made and, when order is asserted, that the last calls made are the
    asserted tools in their order. *)
Theorem aiToolsCalled_success_means_called (fresh : nat) (assertOrder : option bool)
  (toolCalls : list Assertion) (messages : list Message) (w w' : World)
  (r : CriterionResult ToolsCalled.ToolCallsCriterionOutput)
  (Hsome : toolCalls <> [])
  (Hrun : Criterion.evaluate (ToolsCalled.aiToolsCalled fresh assertOrder toolCalls) messages w
          = (Resolved r, w'))
  (Hsuccess : status r = Some success) :
  exists actual,
    ToolsCalled.extractToolCallsFromMessages messages = Returned actual /\
    (forall a, In a toolCalls ->
               exists call, In call actual /\ tc_name call = ToolsCalled.name a) /\
    (assertOrder = Some true ->
     length toolCalls <= length actual /\
     map tc_name (skipn (length actual - length toolCalls) actual)
     = map ToolsCalled.name toolCalls).
Proof.
  destruct toolCalls as [|a0 rest]; [congruence|].
  cbn in Hrun. unfold ToolsCalled.settle in Hrun.
  destruct (ToolsCalled.extractToolCallsFromMessages messages) as [actual | e];
    [|cbn in Hrun; discriminate].
  exists actual. split; [reflexivity|].
  destruct (checkFrom_returns assertOrder (rev actual) (rev (a0 :: rest)) 0 w)
    as (r1 & w1 & Hcheck & _ & _ & _ & Hok).
  change (rev rest ++ [a0]) with (rev (a0 :: rest)) in Hrun.
  rewrite Hcheck in Hrun. inversion Hrun; subst.
  destruct (Hok Hsuccess) as [Hcalled Horder]. split.
  - intros a Hin. rewrite Forall_forall in Hcalled.
    apply in_rev in Hin. destruct (Hcalled a Hin) as (call & Hcall & Hname).
    rewrite <- in_rev in Hcall. now exists call.
  - intros Hao. apply last_calls_reversed. apply names_in_place. exact (Horder Hao).
Qed.

Lemma checkFrom_succeeds (assertOrder : option bool) (reversedActual : list ToolCall)
  (assertions : list Assertion) : forall i w,
  Forall (calledIn reversedActual) assertions ->
  (assertOrder = Some true ->
   forall j a, nth_error assertions j = Some a ->
               exists call, nth_error reversedActual (i + j) = Some call /\
                            tc_name call = ToolsCalled.name a) ->
  Forall (fun a => forall assert, ToolsCalled.assertion a = Some assert ->
                   forall call w0, In call reversedActual ->
                                   tc_name call = ToolsCalled.name a ->
                                   exists v w1,
                                     assert call w0 = (Resolved v, w1) /\ v <> Some false)
         assertions ->
  exists w',
    ToolsCalled.checkFrom assertOrder reversedActual assertions i w
    = (Returned {| output := {| ToolsCalled.toolCallOrderSatisfied := true |};
                   reason := None; error := None; status := Some success |}, w').
Proof.
  induction assertions as [|a assertions IH]; intros i w Hcalled Horder Hassert.
  - exists w. reflexivity.
  - inversion Hcalled as [|? ? (call & Hin & Hname) Hcalled']; subst.
    inversion Hassert as [|? ? Ha Hassert']; subst.
    assert (Hnext : forall w0, exists w',
               ToolsCalled.checkFrom assertOrder reversedActual assertions (S i) w0
               = (Returned {| output := {| ToolsCalled.toolCallOrderSatisfied := true |};
                              reason := None; error := None; status := Some success |}, w')).
    { intros w0. apply IH; [exact Hcalled' | | exact Hassert'].
      intros Hao j a' Hj. replace (S i + j) with (i + S j) by lia.
      now apply (Horder Hao (S j) a'). }
    cbn [ToolsCalled.checkFrom].
    assert (Hcall : exists w',
      (match find (fun call => String.eqb (tc_name call) (ToolsCalled.name a)) reversedActual with
       | None => ret (ToolsCalled.notCalled true a)
       | Some actualToolCall =>
           match ToolsCalled.assertion a with
           | None => ToolsCalled.checkFrom assertOrder reversedActual assertions (S i)
           | Some assert =>
               fun w =>
                 let (p, w') := assert actualToolCall w in
                 match p with
                 | Resolved (Some false) => (Returned (ToolsCalled.assertionFailed a None), w')
                 | Resolved _ =>
                     ToolsCalled.checkFrom assertOrder reversedActual assertions (S i) w'
                 | Rejected e =>
                     (Returned (ToolsCalled.assertionFailed a (Some (ToolsCalled.caught e))),
                      w')
                 end
           end
       end) w
      = (Returned {| output := {| ToolsCalled.toolCallOrderSatisfied := true |};
                     reason := None; error := None; status := Some success |}, w')).
    { pose proof (find_by_name (ToolsCalled.name a) reversedActual) as Hfind.
      destruct (find _ reversedActual) as [actual|]; [|now destruct (Hfind call Hin)].
      destruct Hfind as [Hactual Hactualname].
      destruct (ToolsCalled.assertion a) as [assert|]; [|apply Hnext].
      destruct (Ha assert eq_refl actual w Hactual Hactualname) as (v & w1 & Hv & Hnot).
      rewrite Hv.
      destruct v as [[|]|]; [apply Hnext | congruence | apply Hnext]. }
    destruct assertOrder as [[|]|]; try exact Hcall.
    destruct (Horder eq_refl 0 a eq_refl) as (c & Hc & Hcname).
    rewrite Nat.add_0_r in Hc. rewrite Hc.
    apply String.eqb_eq in Hcname. rewrite Hcname. exact Hcall.
Qed.

(** X20. [aiToolsCalled] succeeds when the extraction returns, every asserted
    tool is among the calls made, the last calls made are the asserted
    tools in their order when order is asserted, and no assertion throws
    or gives [false] on a call of its tool. *)
Theorem aiToolsCalled_succeeds (fresh : nat) (assertOrder : option bool)
  (toolCalls : list Assertion) (messages : list Message) (actual : list ToolCall) (w : World)
  (Hextract : ToolsCalled.extractToolCallsFromMessages messages = Returned actual)
  (Hcalled : forall a, In a toolCalls ->
                       exists call, In call actual /\ tc_name call = ToolsCalled.name a)
  (Horder : assertOrder = Some true ->
            length toolCalls <= length actual /\
            map tc_name (skipn (length actual - length toolCalls) actual)
            = map ToolsCalled.name toolCalls)
  (Hassert : forall a assert, In a toolCalls -> ToolsCalled.assertion a = Some assert ->
             forall call w0, In call actual -> tc_name call = ToolsCalled.name a ->
                             exists v w1, assert call w0 = (Resolved v, w1) /\ v <> Some false) :
  exists r w',
    Criterion.evaluate (ToolsCalled.aiToolsCalled fresh assertOrder toolCalls) messages w
    = (Resolved r, w') /\
    status r = Some success /\
    error r = None /\
    ToolsCalled.toolCallOrderSatisfied (output r) = true.
Proof.
  destruct toolCalls as [|a0 rest]; [do 2 eexists; split; [reflexivity | now cbn]|].
  cbn [Criterion.evaluate ToolsCalled.aiToolsCalled length Nat.eqb].
  unfold ToolsCalled.settle. rewrite Hextract.
  destruct (checkFrom_succeeds assertOrder (rev actual) (rev (a0 :: rest)) 0 w) as [w' Hrun].
  - apply Forall_forall. intros a Hin. apply in_rev in Hin.
    destruct (Hcalled a Hin) as (call & Hcall & Hname).
    rewrite in_rev in Hcall. now exists call.
  - intros Hao. apply names_in_place. apply last_calls_reversed. exact (Horder Hao).
  - apply Forall_forall. intros a Hin assert Ha call w0 Hcall Hname.
    apply in_rev in Hin. rewrite <- in_rev in Hcall. now apply (Hassert a).
  - rewrite Hrun. do 2 eexists. split; [reflexivity | now cbn].
Qed.

Lemma find_last_named (nm : string) (before after : list ToolCall) (call : ToolCall) :
  tc_name call = nm ->
  Forall (fun c => tc_name c <> nm) after ->
  find (fun c => String.eqb (tc_name c) nm) (rev (before ++ call :: after)) = Some call.
Proof.
  intros Hname Hafter. rewrite rev_app_distr. cbn [rev]. rewrite <- app_assoc. cbn [app].
  apply Forall_rev in Hafter.
  induction (rev after) as [|c l IH]; cbn.
  - apply String.eqb_eq in Hname. now rewrite Hname.
  - inversion Hafter as [|? ? Hc Hl]; subst.
    apply String.eqb_neq in Hc. rewrite Hc. now apply IH.
Qed.

(** X21. The assertion of a tool is made on the last call of that tool: with
    one assertion and no assertion of order, the result is decided by
    what the assertion gives on the last call of that name, [false] or a
    throw being a failure and anything else a success. *)
Theorem assertion_sees_last_call (fresh : nat) (assertOrder : option bool)
  (toolName : string) (assert : ToolCall -> World -> Promise (option bool) * World)
  (messages : list Message) (before after : list ToolCall) (call : ToolCall) (w : World)
  (Horder : assertOrder <> Some true)
  (Hextract : ToolsCalled.extractToolCallsFromMessages messages
              = Returned (before ++ call :: after))
  (Hname : tc_name call = toolName)
  (Hafter : Forall (fun c => tc_name c <> toolName) after) :
  let asserted := ToolsCalled.mkToolCallAssertion toolName (Some assert) in
  Criterion.evaluate (ToolsCalled.aiToolsCalled fresh assertOrder [asserted]) messages w
  = (match fst (assert call w) with
     | Resolved (Some false) => Resolved (ToolsCalled.assertionFailed asserted None)
     | Resolved _ =>
         Resolved {| output := {| ToolsCalled.toolCallOrderSatisfied := true |};
                     reason := None; error := None; status := Some success |}
     | Rejected e =>
         Resolved (ToolsCalled.assertionFailed asserted (Some (ToolsCalled.caught e)))
     end, snd (assert call w)).
Proof.
  intros asserted.
  cbn [Criterion.evaluate ToolsCalled.aiToolsCalled length Nat.eqb rev app].
  unfold ToolsCalled.settle. rewrite Hextract.
  pose proof (find_last_named toolName before after call Hname Hafter) as Hfind.
  destruct assertOrder as [[|]|]; [congruence | |];
    cbn [ToolsCalled.checkFrom ToolsCalled.name ToolsCalled.assertion asserted];
    rewrite Hfind; destruct (assert call w) as [[[[|]|] | e] w1]; reflexivity.
Qed.

(** X22. [aiToolCalls] rejects only when the extraction of the tool calls
    throws, and then the assertion is not called.  Otherwise it resolves
    with a status: success with what the assertion gives, or, when the
    assertion throws, failure with the error attached. *)
Theorem aiToolCalls_scores_assertion_errors {T : Type} (fresh : nat)
  (assertion : list ToolCall -> World -> Promise T * World)
  (messages : list Message) (w : World) :
  let run := Criterion.evaluate (ToolsCalled.aiToolCalls fresh assertion) messages w in
  (forall e, ToolsCalled.extractToolCallsFromMessages messages = Thrown e ->
             run = (Rejected e, w)) /\
  (forall toolCalls, ToolsCalled.extractToolCallsFromMessages messages = Returned toolCalls ->
     snd run = snd (assertion toolCalls w) /\
     exists r,
       fst run = Resolved r /\
       status r <> None /\
       (forall v, fst (assertion toolCalls w) = Resolved v ->
                  status r = Some success /\ output r = Some v /\ error r = None) /\
       (forall e, fst (assertion toolCalls w) = Rejected e ->
                  status r = Some failure /\ output r = None /\
                  reason r = Some "Tool call assertion failed" /\
                  error r = Some (ToolsCalled.caught e))).
Proof.
  cbn. unfold ToolsCalled.settle. split.
  - intros e He. now rewrite He.
  - intros toolCalls Hcalls. rewrite Hcalls.
    destruct (assertion toolCalls w) as [[v | e] w1]; cbn; (split; [reflexivity|]);
      eexists; (split; [reflexivity|]); cbn;
      (split; [discriminate|]); split; intros x Hx; inversion Hx; subst; repeat split.
Qed.

End ToolsCalledFacts.

(** ** The further properties on the stub collaborators *)

Lemma and_is_two_valued_witness :
  exists both,
    Criterion.evaluate (Criterion.and 9 Stub.undetermined (Stub.atLeast 1)) [Stub.hi] 0
    = (Resolved both, 2) /\
    status both = Some failure /\
    error both = None /\
    exists negated,
      Criterion.evaluate (Criterion.negate 10 (Criterion.and 9 Stub.undetermined (Stub.atLeast 1)))
                         [Stub.hi] 0
      = (Resolved negated, 2) /\
      status negated = Some success.
Proof.
  eexists.
  match goal with
  | |- ?run /\ _ => assert (Hrun : run) by reflexivity
  end.
  split; [exact Hrun|]. split; [reflexivity|].
  destruct (and_is_two_valued 9 10 Stub.undetermined (Stub.atLeast 1) [Stub.hi] 0 2 _ Hrun)
    as (_ & Herror & _ & r1 & r2 & w1 & negated & H1 & H2 & Hnegated & Hsuccess & _).
  split; [exact Herror|].
  exists negated. split; [exact Hnegated|].
  apply Hsuccess. left. inversion H1. discriminate.
Defined.

Lemma userSimulation_returns_turns_witness :
  exists out s',
    Segment.evaluate (Segment.userSimulation Stub.user (Some 3%Z) (Stub.atLeast 4))
                     Stub.agent [] Stub.start
    = (Returned out, s') /\
    exists msgs before met cs,
      Turns Stub.user (Stub.atLeast 4) Stub.agent [] (world Stub.start)
            msgs (before ++ [met]) cs (world s') /\
      out = map Segment.type_message msgs
              ++ [Segment.type_eval (Stub.atLeast 4) (Resolved met)] /\
      length msgs = 2 * (length before + 1) /\
      (Z.of_nat (length before + 1) <= 3)%Z.
Proof.
  do 2 eexists.
  match goal with
  | |- ?run /\ _ => assert (Hrun : run) by (vm_compute; reflexivity)
  end.
  split; [exact Hrun|].
  destruct (userSimulation_returns_turns _ _ _ _ _ _ _ _ Hrun)
    as [(Hmax & _) | (msgs & before & met & cs & HT & _ & Hout & _ & Hlen & Hk & _)].
  - cbn in Hmax. lia.
  - exists msgs, before, met, cs. repeat split; assumption.
Defined.

Lemma stub_flaky_turn :
  Turns Stub.user Stub.neverMet StubTools.flakyAgent [] 0 [Stub.hi; Stub.hello]
        [{| output := tt; reason := Some "not yet"; error := None; status := Some failure |}]
        [CallRespond []; CallInvoke [Stub.hi]; CallEvaluate 1 [Stub.hi; Stub.hello]] 3.
Proof.
  refine (turns_next Stub.user Stub.neverMet StubTools.flakyAgent [] 0 (mkUserMessage "hi") 1
            {| message_of := mkAIMessage "hello" None None |} 2
            _ 3 [] [] [] 3 eq_refl eq_refl eq_refl _).
  apply turns_done.
Defined.

Lemma userSimulation_aborts_on_rejection_witness :
  Forall (fun x : CriterionResult unit => status x <> Some success)
         [{| output := tt; reason := Some "not yet"; error := None; status := Some failure |}] /\
  (Z.of_nat 1 < Segment.maxIterationsOf (Some 3%Z))%Z /\
  exists s',
    Segment.evaluate (Segment.userSimulation Stub.user (Some 3%Z) Stub.neverMet)
                     StubTools.flakyAgent [] {| world := 0; calls := [] |}
    = (Thrown (mkError "agent down"), s').
Proof.
  assert (Hunmet : Forall (fun x : CriterionResult unit => status x <> Some success)
                     [{| output := tt; reason := Some "not yet"; error := None;
                         status := Some failure |}])
    by (constructor; [discriminate | constructor]).
  assert (Hk : (Z.of_nat 1 < Segment.maxIterationsOf (Some 3%Z))%Z) by (cbn; lia).
  split; [exact Hunmet|]. split; [exact Hk|].
  destruct (userSimulation_aborts_on_rejection Stub.user Stub.neverMet StubTools.flakyAgent
              (Some 3%Z) [] 0 [] _ _ _ _ stub_flaky_turn Hunmet Hk) as (_ & Hagent & _).
  eexists. exact (Hagent (mkUserMessage "hi") 4 (mkError "agent down") 5 eq_refl eq_refl).
Defined.

Lemma report_messages_are_result_messages_witness :
  exists rep s',
    EvalRunner.evaluate (EvalRunner.the_agent Stub.agent)
      [Segment.message Stub.hi; Segment.aiEval Stub.neverMet; Segment.agentResponse]
      Stub.start
    = (Returned rep, s') /\
    EvalRunner.messages rep = [Stub.hi; Stub.hello] /\
    EvalRunner.messages rep = resultMessages (EvalRunner.results rep).
Proof.
  do 2 eexists.
  match goal with
  | |- ?run /\ _ => assert (Hrun : run) by (vm_compute; reflexivity)
  end.
  split; [exact Hrun|]. split; [reflexivity|].
  exact (report_messages_are_result_messages _ _ _ _ _ Hrun).
Defined.

Lemma longer_scenario_extends_report_witness :
  exists rep1 s1 rep s',
    EvalRunner.evaluate (EvalRunner.the_agent Stub.agent)
      [Segment.message Stub.hi; Segment.aiEval Stub.neverMet] Stub.start
    = (Returned rep1, s1) /\
    EvalRunner.evaluate (EvalRunner.the_agent Stub.agent)
      ([Segment.message Stub.hi; Segment.aiEval Stub.neverMet]
         ++ [Segment.agentResponse; Segment.aiEval (Stub.atLeast 2)]) Stub.start
    = (Returned rep, s') /\
    exists more,
      EvalRunner.results rep = EvalRunner.results rep1 ++ more /\
      EvalRunner.messages rep = EvalRunner.messages rep1 ++ resultMessages more.
Proof.
  do 4 eexists.
  match goal with
  | |- ?run1 /\ ?run /\ _ =>
      assert (Hfirst : run1) by (vm_compute; reflexivity);
      assert (Hboth : run) by (vm_compute; reflexivity)
  end.
  split; [exact Hfirst|]. split; [exact Hboth|].
  exact (longer_scenario_extends_report _ _ _ _ _ _ _ _ Hfirst Hboth).
Defined.

Lemma lookups_agree_witness :
  exists rep s',
    EvalRunner.evaluate (EvalRunner.the_agent Stub.agent)
      [Segment.message Stub.hi; Segment.aiEval (Stub.atLeast 2); Segment.agentResponse;
       Segment.aiEval (Stub.atLeast 2)]
      Stub.start
    = (Returned rep, s') /\
    EvalRunner.getResults rep (Stub.atLeast 2)
    = [Stub.result (Some failure); Stub.result (Some success)] /\
    EvalRunner.getResult rep (Stub.atLeast 2)
    = hd_error (EvalRunner.getResults rep (Stub.atLeast 2)).
Proof.
  do 2 eexists.
  match goal with
  | |- ?run /\ _ => assert (Hrun : run) by (vm_compute; reflexivity)
  end.
  split; [exact Hrun|]. split; [reflexivity|].
  exact (proj1 (lookups_agree _ _ _ _ _ (Stub.atLeast 2) Hrun)).
Defined.


Lemma agent_factory_called_once_first_witness :
  Forall Exported [Segment.message Stub.hi;
                   Segment.userSimulation Stub.user (Some 2%Z) Stub.neverMet] /\
  factoryCalls
    (calls (snd (EvalRunner.evaluate (EvalRunner.the_factory StubTools.factory)
                   [Segment.message Stub.hi;
                    Segment.userSimulation Stub.user (Some 2%Z) Stub.neverMet]
                   Stub.start)))
  = factoryCalls (calls Stub.start) + 1.
Proof.
  assert (Hexported : Forall (Exported (World := Stub.World) (Any := unit))
                        [Segment.message Stub.hi;
                         Segment.userSimulation Stub.user (Some 2%Z) Stub.neverMet])
    by (repeat constructor).
  split; [exact Hexported|].
  exact (proj1 (agent_factory_called_once_first StubTools.factory _ Stub.start Hexported)).
Defined.


Lemma extraction_without_tool_messages_witness :
  toolContents [Stub.hi; StubTools.asks [StubTools.search; StubTools.fetch]] = [] /\
  ToolsCalled.extractToolCallsFromMessages
    [Stub.hi; StubTools.asks [StubTools.search; StubTools.fetch]]
  = Returned [StubTools.search; StubTools.fetch].
Proof.
  split; [reflexivity|].
  exact (extraction_without_tool_messages
           [Stub.hi; StubTools.asks [StubTools.search; StubTools.fetch]] eq_refl).
Defined.

Lemma extraction_throws_on_emptied_slot_witness :
  ToolsCalled.resultOf StubTools.search StubTools.searchResult = true /\
  ToolsCalled.extractToolCallsFromMessages StubTools.twoCalls
  = Thrown ToolsCalled.undefinedRead.
Proof.
  split; [reflexivity|].
  exact (extraction_throws_on_emptied_slot [Stub.hi]
           (mkAIMessage "" (Some [StubTools.search; StubTools.fetch]) None)
           [StubTools.answers StubTools.searchResult]
           StubTools.search StubTools.fetch [] StubTools.searchResult []
           eq_refl eq_refl eq_refl).
Defined.

Lemma aiToolsCalled_settles_witness :
  exists w',
    Criterion.evaluate (ToolsCalled.aiToolsCalled 11 None [StubTools.searched])
                       StubTools.twoCalls 0
    = (Rejected ToolsCalled.undefinedRead, w') /\
    Criterion.evaluate (ToolsCalled.aiToolsCalled (World := Stub.World) 11 None [])
                       StubTools.twoCalls 0
    = (Resolved {| output := {| ToolsCalled.toolCallOrderSatisfied := true |};
                   reason := Some "No tool calls to check";
                   error := None;
                   status := Some success |}, 0).
Proof.
  exists 0.
  destruct (aiToolsCalled_settles 11 None [StubTools.searched] StubTools.twoCalls 0)
    as (_ & Hthrows & _).
  split.
  - apply Hthrows; [discriminate | reflexivity].
  - exact (proj1 (aiToolsCalled_settles (World := Stub.World) 11 None [] StubTools.twoCalls 0)
             eq_refl).
Defined.

Lemma aiToolsCalled_success_means_called_witness :
  exists r w',
    [StubTools.searched; StubTools.fetchedToo] <> [] /\
    Criterion.evaluate
      (ToolsCalled.aiToolsCalled 11 (Some true) [StubTools.searched; StubTools.fetchedToo])
      StubTools.transcript 0
    = (Resolved r, w') /\
    status r = Some success /\
    exists actual,
      ToolsCalled.extractToolCallsFromMessages StubTools.transcript = Returned actual /\
      map tc_name (skipn (length actual - 2) actual) = ["search"; "fetch"].
Proof.
  do 2 eexists.
  assert (Hsome : [StubTools.searched; StubTools.fetchedToo] <> []) by discriminate.
  split; [exact Hsome|].
  match goal with
  | |- ?run /\ _ => assert (Hrun : run) by (vm_compute; reflexivity)
  end.
  split; [exact Hrun|]. split; [reflexivity|].
  destruct (aiToolsCalled_success_means_called _ _ _ _ _ _ _ Hsome Hrun eq_refl)
    as (actual & Hactual & _ & Horder).
  exists actual. split; [exact Hactual|]. exact (proj2 (Horder eq_refl)).
Defined.

Lemma aiToolsCalled_succeeds_witness :
  exists r w',
    Criterion.evaluate
      (ToolsCalled.aiToolsCalled 11 (Some true) [StubTools.searched; StubTools.fetchedToo])
      StubTools.transcript 0
    = (Resolved r, w') /\
    status r = Some success /\
    error r = None /\
    ToolsCalled.toolCallOrderSatisfied (output r) = true.
Proof.
  refine (aiToolsCalled_succeeds 11 (Some true) [StubTools.searched; StubTools.fetchedToo]
            StubTools.transcript _ 0 eq_refl _ _ _).
  - intros a [<- | [<- | []]]; eexists.
    + split; [cbn; left; reflexivity | reflexivity].
    + split; [cbn; right; left; reflexivity | reflexivity].
  - intros _. split; [cbn; lia | reflexivity].
  - intros a assert [<- | [<- | []]] Ha; inversion Ha; subst.
    intros call w0 [<- | [<- | []]] Hname; try discriminate Hname.
    do 2 eexists. split; [reflexivity | discriminate].
Defined.

Lemma assertion_sees_last_call_witness :
  exists w',
    Criterion.evaluate (ToolsCalled.aiToolsCalled 11 None [StubTools.searched])
                       StubTools.transcript 0
    = (Resolved {| output := {| ToolsCalled.toolCallOrderSatisfied := true |};
                   reason := None; error := None; status := Some success |}, w').
Proof.
  eexists.
  refine (assertion_sees_last_call 11 None "search" StubTools.hasArgs StubTools.transcript
            [] [StubTools.fetched]
            {| tc_id := None; tc_name := "search"; tc_args := [("q", UString "rocq")];
               tc_result := Some StubTools.searchResult |}
            0 _ eq_refl eq_refl _).
  - discriminate.
  - constructor; [discriminate | constructor].
Defined.

Lemma agentResponse_answers_the_transcript_witness :
  exists rep1 s1 rep s2,
    EvalRunner.evaluate (EvalRunner.the_agent Stub.agent)
      [Segment.message Stub.hi; Segment.aiEval Stub.neverMet] Stub.start
    = (Returned rep1, s1) /\
    EvalRunner.evaluate (EvalRunner.the_agent Stub.agent)
      ([Segment.message Stub.hi; Segment.aiEval Stub.neverMet] ++ [Segment.agentResponse])
      Stub.start
    = (Returned rep, s2) /\
    calls s2 = calls s1 ++ [CallInvoke [Stub.hi]] /\
    EvalRunner.messages rep = EvalRunner.messages rep1 ++ [Stub.hello].
Proof.
  do 2 eexists.
  match goal with
  | |- exists rep s2, ?run1 /\ _ => assert (Hfirst : run1) by (vm_compute; reflexivity)
  end.
  destruct (proj2 (agentResponse_answers_the_transcript Stub.agent _ _ _ _ Hfirst)
              {| message_of := mkAIMessage "hello" None None |} eq_refl)
    as (rep & Hrun & _ & Hmessages).
  exists rep. eexists. split; [exact Hfirst|]. split; [exact Hrun|].
  split; [reflexivity | exact Hmessages].
Defined.

Lemma aiEval_result_is_found_witness :
  exists rep1 s1 rep s2,
    EvalRunner.evaluate (Any := unit) (EvalRunner.the_agent Stub.agent)
      [Segment.message Stub.hi; Segment.agentResponse] Stub.start
    = (Returned rep1, s1) /\
    EvalRunner.messages rep1 <> [] /\
    EvalRunner.evaluate (EvalRunner.the_agent Stub.agent)
      ([Segment.message Stub.hi; Segment.agentResponse] ++ [Segment.aiEval (Stub.atLeast 2)])
      Stub.start
    = (Returned rep, s2) /\
    EvalRunner.getResults rep (Stub.atLeast 2) = [Stub.result (Some success)] /\
    EvalRunner.getResult rep (Stub.atLeast 2) = Some (Stub.result (Some success)).
Proof.
  do 2 eexists.
  match goal with
  | |- exists rep s2, ?run1 /\ _ => assert (Hfirst : run1) by (vm_compute; reflexivity)
  end.
  match type of Hfirst with
  | _ = (Returned ?r, _) =>
      assert (Hmessages : EvalRunner.messages r <> []) by discriminate
  end.
  destruct (proj2 (aiEval_result_is_found Stub.agent _ _ _ _ (Stub.atLeast 2) Hfirst Hmessages)
              (Stub.result (Some success)) eq_refl)
    as (rep & Hrun & _ & Hall & Hone).
  exists rep. eexists. split; [exact Hfirst|]. split; [exact Hmessages|].
  split; [exact Hrun|]. split; [exact Hall|]. exact (proj1 (Hone eq_refl)).
Defined.
